(** * SimpleNotes: the persistence adapter, the markdown preview and the
      note list controller

    A shallow embedding of [src/js/db.js] and [src/js/app.js], and of the
    second copy of the controller that the repository keeps (the script that
    also registers the service worker), with the properties of the
    specification stated and settled over it.

    Conventions of the embedding.
    - A JavaScript string is a [string]: a sequence of 8-bit characters.
      The line terminators of the regular expressions are LF and CR.
    - [String.prototype.toLowerCase] is the method of the platform: the
      embedding does not define it, every function that calls it is stated
      for whatever that method computes (class [ToLowerCase]).
    - The outcome of the requests that a call of [db.js] makes against
      IndexedDB is decided by the environment, call by call: the function
      takes it as an argument ([requestError]: the error of the request that
      fails, or [None] when the requests of this call succeed).
    - [Date.now()] and [new Date().toISOString()] read the clock of the
      environment: the functions that read it take the reading as an argument.
    - An [async] function is one atomic state transition which yields the
      settled state of its promise; other events running between two [await]s
      are outside the model.
    - The text kept under the key ['simpleNotes'] of [localStorage] is only
      ever written as [JSON.stringify] of an array of notes and read back with
      [JSON.parse]: the model keeps the array that the text denotes, and [None]
      when the key is absent. *)

From Stdlib Require Import ZArith Ascii Lia.
From stdpp Require Import base decidable option list strings pretty gmap sorting.

(** ** Data model *)

(** The only entity ([app.js], [createNewNote] and [saveCurrentNote] build
    it as an object literal with these four string fields). *)
Record Note := mkNote {
  id : string;
  title : string;
  content : string;
  updatedAt : string
}.

#[global] Instance Note_eq_dec : EqDecision Note.
Proof. solve_decision. Defined.

(** The settled state of a promise: [resolve(a)] or [reject(e)]. *)
Inductive promise (A : Type) : Type :=
| Resolved (a : A)
| Rejected (e : string).
Arguments Resolved {A} a.
Arguments Rejected {A} e.

(** [Array.prototype.find]: the first element that satisfies [P], [undefined]
    ([None]) when there is none. *)
Definition find {A} (P : A -> Prop) `{forall x, Decision (P x)} (l : list A)
  : option A :=
  snd <$> list_find P l.

(** [Array.prototype.findIndex]: the first index whose element satisfies [P],
    -1 when there is none. *)
Definition findIndex {A} (P : A -> Prop) `{forall x, Decision (P x)} (l : list A)
  : Z :=
  match list_find P l with
  | Some (i, _) => Z.of_nat i
  | None => (-1)%Z
  end.

(** ** db.js: IndexedDB with localStorage fallback *)
Module Db.

(** The object store ['notes'] of the database, created with
    [{ keyPath: 'id' }]: one record per key. *)
Record IDBFactory := mkIDB {
  objectStore : gmap string Note
}.

(** What the module reads of [window]: [window.indexedDB] ([None] when the
    browser has none) and the item ['simpleNotes'] of [localStorage]. *)
Record Window := mkWindow {
  indexedDB : option IDBFactory;
  localStorage : option (list Note)
}.

Definition set_localStorage (w : Window) (v : list Note) : Window :=
  {| indexedDB := indexedDB w; localStorage := Some v |}.

Definition set_objectStore (w : Window) (m : gmap string Note) : Window :=
  {| indexedDB := Some {| objectStore := m |};
     localStorage := localStorage w |}.

(** [JSON.parse(localStorage.getItem('simpleNotes') || '[]')] *)
Definition parseItem (w : Window) : list Note :=
  default [] (localStorage w).

(** The order of the keys of the object store (strings compare by their
    code units). *)
Definition key_le (a b : Note) : Prop := String.leb (id a) (id b) = true.

#[global] Instance key_le_dec : RelDecision key_le.
Proof. intros a b. unfold key_le. apply _. Defined.

(** [store.getAll()]: the records in ascending order of their keys. *)
Definition getAll (m : gmap string Note) : list Note :=
  merge_sort key_le (snd <$> map_to_list m).

(** In the three functions below, [requestError] is what the environment
    answers to the requests of this call against the database (opening it,
    then the request on the object store): the error of the one that fails
    ([request.onerror], which rejects the promise with it), or [None] when
    both succeed.  Without IndexedDB no request is made. *)
Definition saveNote (note : Note) (requestError : option string) (w : Window)
  : promise unit * Window :=
  match indexedDB w with
  | Some db =>
      match requestError with
      | Some e => (Rejected e, w)
      | None => (Resolved tt, set_objectStore w (<[id note := note]> (objectStore db)))
      end
  | None =>
      (* Fallback to localStorage *)
      let notes := parseItem w in
      let existingIndex := findIndex (fun n => id n = id note) notes in
      let notes :=
        if (0 <=? existingIndex)%Z
        then <[Z.to_nat existingIndex := note]> notes
        else notes ++ [note] in
      (Resolved tt, set_localStorage w notes)
  end.

Definition getNotes (requestError : option string) (w : Window)
  : promise (list Note) :=
  match indexedDB w with
  | Some db =>
      match requestError with
      | Some e => Rejected e
      | None => Resolved (getAll (objectStore db))
      end
  | None =>
      (* Fallback to localStorage *)
      Resolved (parseItem w)
  end.

Definition deleteNote (i : string) (requestError : option string) (w : Window)
  : promise unit * Window :=
  match indexedDB w with
  | Some db =>
      match requestError with
      | Some e => (Rejected e, w)
      | None => (Resolved tt, set_objectStore w (delete i (objectStore db)))
      end
  | None =>
      (* Fallback to localStorage *)
      let notes := parseItem w in
      let filtered := List.filter (fun note => bool_decide (id note <> i)) notes in
      (Resolved tt, set_localStorage w filtered)
  end.

End Db.

(** ** The regular expressions of the preview

    [String.prototype.replace] with a global regular expression, for the
    fragment of the pattern language that [renderPreview] uses: characters,
    [.], a greedy or lazy star over a single character, the assertions [^]
    and [$] under the flag [m], concatenation and capturing groups.  The
    matcher is the backtracking matcher of the language definition, written
    with continuations. *)
Module RegExp.

(** LF and CR; [.] matches every character but these, and [^] and [$] under
    the flag [m] match next to them. *)
Definition LineTerminator (c : ascii) : bool :=
  Ascii.eqb c "010"%char || Ascii.eqb c "013"%char.

Inductive atom :=
| Char (c : ascii)
| Dot.

Definition atom_matches (a : atom) (c : ascii) : bool :=
  match a with
  | Char c' => Ascii.eqb c' c
  | Dot => negb (LineTerminator c)
  end.

Inductive regex :=
| Empty
| Atom (a : atom)
| Star (greedy : bool) (a : atom)
| Bol
| Eol
| Seq (r1 r2 : regex)
| Group (n : nat) (r : regex).

(** The captures of a match, the latest binding of a group first. *)
Definition captures := list (nat * string).

(** A match in progress: the character before the current position (none
    at the start of the input), the input from the current position on, and
    the captures so far. *)
Definition Continuation := option ascii -> string -> captures -> option (string * captures).

(** The part of [s] read on the way to its suffix [s']. *)
Definition consumed (s s' : string) : string :=
  String.substring 0 (String.length s - String.length s') s.

Fixpoint exec (r : regex) (prev : option ascii) (s : string) (cs : captures)
    (k : Continuation) {struct r} : option (string * captures) :=
  match r with
  | Empty => k prev s cs
  | Atom a =>
      match s with
      | String c s' => if atom_matches a c then k (Some c) s' cs else None
      | EmptyString => None
      end
  | Star greedy a =>
      (fix loop (prev : option ascii) (s : string) {struct s} :=
         if greedy then
           match
             match s with
             | String c s' => if atom_matches a c then loop (Some c) s' else None
             | EmptyString => None
             end
           with
           | Some m => Some m
           | None => k prev s cs
           end
         else
           match k prev s cs with
           | Some m => Some m
           | None =>
               match s with
               | String c s' => if atom_matches a c then loop (Some c) s' else None
               | EmptyString => None
               end
           end) prev s
  | Bol =>
      match prev with
      | None => k prev s cs
      | Some c => if LineTerminator c then k prev s cs else None
      end
  | Eol =>
      match s with
      | EmptyString => k prev s cs
      | String c _ => if LineTerminator c then k prev s cs else None
      end
  | Seq r1 r2 =>
      exec r1 prev s cs (fun prev' s' cs' => exec r2 prev' s' cs' k)
  | Group n r1 =>
      exec r1 prev s cs (fun prev' s' cs' => k prev' s' ((n, consumed s s') :: cs'))
  end.

Definition capture (n : nat) (cs : captures) : option string :=
  snd <$> List.find (fun p => Nat.eqb (fst p) n) cs.

Definition digit (c : ascii) : option nat :=
  let n := Ascii.nat_of_ascii c in
  if (49 <=? n)%nat && (n <=? 57)%nat then Some (n - 48)%nat else None.

(** The replacement text: [$1] ... [$9] stand for the captures of the
    groups that the pattern has, every other character for itself. *)
Fixpoint expand (template : string) (cs : captures) : string :=
  match template with
  | EmptyString => EmptyString
  | String c rest =>
      match rest with
      | String d rest' =>
          match (if Ascii.eqb c "$"%char then digit d else None) with
          | Some n =>
              match capture n cs with
              | Some g => g +:+ expand rest' cs
              | None => String c (expand rest cs)
              end
          | None => String c (expand rest cs)
          end
      | EmptyString => String c EmptyString
      end
  end.

(** [s.replace(r, template)] for a global [r], from a position inside the
    input: [skip] characters still belong to the match found last, [prev]
    is the character before the position. Matches are sought from left to
    right, the next one from the end of the last (one character further
    after an empty match); what lies between matches is kept. *)
Fixpoint replace_from (r : regex) (template : string) (skip : nat)
    (prev : option ascii) (s : string) {struct s} : string :=
  match skip with
  | S skip' =>
      match s with
      | String c rest => replace_from r template skip' (Some c) rest
      | EmptyString => EmptyString
      end
  | O =>
      match exec r prev s [] (fun _ s' cs => Some (s', cs)) with
      | Some (s', cs) =>
          expand template cs +:+
          match s with
          | String c rest =>
              match (String.length s - String.length s')%nat with
              | O => String c (replace_from r template 0 (Some c) rest)
              | S n => replace_from r template n (Some c) rest
              end
          | EmptyString => EmptyString
          end
      | None =>
          match s with
          | String c rest => String c (replace_from r template 0 (Some c) rest)
          | EmptyString => EmptyString
          end
      end
  end.

Definition replace (r : regex) (template : string) (s : string) : string :=
  replace_from r template 0 None s.

(** Concatenation of a sequence of patterns. *)
Definition cat (rs : list regex) : regex := foldr Seq Empty rs.

(** A literal character of a pattern. *)
Definition lit (c : ascii) : regex := Atom (Char c).

End RegExp.

(** ** The string and number methods that the controller calls *)

(** [String.prototype.toLowerCase]: a method of the platform, which the
    embedding takes as it is.  Every definition below that calls it, and
    every definition that calls such a definition, has the method as an
    implicit argument. *)
Class ToLowerCase := toLowerCase : string -> string.

(** [String.prototype.includes]: [searchString] occurs in [s] at some
    position. *)
Fixpoint includes (s searchString : string) : bool :=
  String.prefix searchString s ||
  match s with
  | EmptyString => false
  | String _ s' => includes s' searchString
  end.

(** [Number.prototype.toString] on the integers that [Date.now()] returns:
    the decimal digits, after a minus sign below zero. *)
Definition toString (n : Z) : string := pretty n.

(** A string in a condition: the empty string counts as false. *)
Definition truthy (s : string) : bool := negb (String.eqb s "").

(** [await p; k]: the rest [k] of an [async] function runs when [p] resolves;
    when [p] rejects, the function stops there and rejects too. *)
Definition await {A B S : Type} (p : promise A * S)
    (k : A -> S -> promise B * S) : promise B * S :=
  match p with
  | (Resolved a, s) => k a s
  | (Rejected e, s) => (Rejected e, s)
  end.

(** ** app.js: the controller *)
Module App.
Import RegExp.

Section Platform.
Context {platform : ToLowerCase}.

(** An [<li>] of the note list as [renderNoteList] builds it: its text, its
    class, and the note that its click listener [() => openNote(note.id)]
    closes over. *)
Record Li := mkLi {
  textContent : string;
  className : string;
  listener : Note
}.

(** The state of the page: the variables [currentNoteId] ([None] is
    [null]) and [notes], the values of the title field and of the editor,
    the children of [#noteList], the markup of [#preview], and what
    [db.js] reads of [window]. *)
Record State := mkState {
  currentNoteId : option string;
  notes : list Note;
  noteTitle_value : string;
  editor_value : string;
  noteList_children : list Li;
  preview_innerHTML : string;
  window : Db.Window
}.

Definition set_notes (st : State) (l : list Note) : State :=
  mkState (currentNoteId st) l (noteTitle_value st) (editor_value st)
    (noteList_children st) (preview_innerHTML st) (window st).

Definition set_window (st : State) (w : Db.Window) : State :=
  mkState (currentNoteId st) (notes st) (noteTitle_value st) (editor_value st)
    (noteList_children st) (preview_innerHTML st) w.

Definition set_noteList (st : State) (c : list Li) : State :=
  mkState (currentNoteId st) (notes st) (noteTitle_value st) (editor_value st)
    c (preview_innerHTML st) (window st).

Definition set_preview (st : State) (html : string) : State :=
  mkState (currentNoteId st) (notes st) (noteTitle_value st) (editor_value st)
    (noteList_children st) html (window st).

(** [await saveNote(note)] and [await deleteNote(id)] act on the [window]
    of the page. *)
Definition saveNote (note : Note) (requestError : option string) (st : State)
  : promise unit * State :=
  let (p, w) := Db.saveNote note requestError (window st) in (p, set_window st w).

Definition deleteNote (i : string) (requestError : option string) (st : State)
  : promise unit * State :=
  let (p, w) := Db.deleteNote i requestError (window st) in (p, set_window st w).

(** [/^# (.*$)/gm] *)
Definition re_h1 : regex :=
  cat [Bol; lit "#"; lit " "; Group 1 (cat [Star true Dot; Eol])].

(** [/^## (.*$)/gm] *)
Definition re_h2 : regex :=
  cat [Bol; lit "#"; lit "#"; lit " "; Group 1 (cat [Star true Dot; Eol])].

(** [/\*\*(.*?)\*\*/g] *)
Definition re_strong : regex :=
  cat [lit "*"; lit "*"; Group 1 (Star false Dot); lit "*"; lit "*"].

(** [/\*(.*?)\*/g] *)
Definition re_em : regex :=
  cat [lit "*"; Group 1 (Star false Dot); lit "*"].

(** [/\[(.*?)\]\((.*?)\)/g] *)
Definition re_link : regex :=
  cat [lit "["; Group 1 (Star false Dot); lit "]"; lit "(";
       Group 2 (Star false Dot); lit ")"].

(** The replacement ['<a href="$2">$1</a>']. *)
Definition link_template : string :=
  "<a href=" +:+ String (Ascii.ascii_of_nat 34)
    ("$2" +:+ String (Ascii.ascii_of_nat 34) ">$1</a>").

(** The markup that [renderPreview] computes from the text of the editor. *)
Definition markdown (content : string) : string :=
  replace re_link link_template
    (replace re_em "<em>$1</em>"
      (replace re_strong "<strong>$1</strong>"
        (replace re_h2 "<h2>$1</h2>"
          (replace re_h1 "<h1>$1</h1>" content)))).

Definition renderPreview (st : State) : State :=
  let content := editor_value st in
  set_preview st (markdown content).

(** The test of [notes.filter] in [renderNoteList]. *)
Definition shown (filter : string) (note : Note) : bool :=
  includes (toLowerCase (title note)) filter ||
  includes (toLowerCase (content note)) filter.

(** The [<li>] that [renderNoteList] appends for [note]. *)
Definition createLi (current : option string) (note : Note) : Li :=
  {| textContent := if truthy (title note) then title note else "Untitled";
     className := if bool_decide (current = Some (id note)) then "active" else "";
     listener := note |}.

Definition renderNoteList (filter : string) (st : State) : State :=
  let filtered :=
    if truthy filter then List.filter (shown filter) (notes st) else notes st in
  set_noteList st (map (createLi (currentNoteId st)) filtered).

Definition openNote (i : string) (st : State) : State :=
  match find (fun n => id n = i) (notes st) with
  | None => st
  | Some note =>
      let st := mkState (Some i) (notes st) (title note) (content note)
                  (noteList_children st) (preview_innerHTML st) (window st) in
      renderNoteList "" (renderPreview st)
  end.

(** [now] is the value of [Date.now()], [iso] that of
    [new Date().toISOString()], [saved] the outcome of the requests of
    [saveNote]. *)
Definition createNewNote (now : Z) (iso : string) (saved : option string)
    (st : State) : promise unit * State :=
  let newNote :=
    {| id := toString now; title := "Untitled"; content := ""; updatedAt := iso |} in
  await (saveNote newNote saved st) (fun _ st =>
    let st := set_notes st (newNote :: notes st) in
    (Resolved tt, openNote (id newNote) st)).

(** A click that reaches [#noteList]: [target] is the [<li>] clicked, or
    [None] when the target of the click is not an [LI] element. *)
Record MouseEvent := mkEvent {
  shiftKey : bool;
  target : option Li
}.

(** The click listener of [#noteList] (Delete note, Shift+Click).
    [deleted] is the outcome of the requests of [deleteNote]; [now], [iso]
    and [saved] are the clock readings and the outcome of the
    [createNewNote] it may call. *)
Definition noteList_click (e : MouseEvent) (now : Z) (iso : string)
    (deleted saved : option string) (st : State) : promise unit * State :=
  match shiftKey e, target e with
  | true, Some li =>
      match find (fun n => title n = textContent li) (notes st) with
      | Some found =>
          let noteId := id found in
          if truthy noteId then
            await (deleteNote noteId deleted st) (fun _ st =>
              let st :=
                set_notes st (List.filter (fun n => bool_decide (id n <> noteId)) (notes st)) in
              if bool_decide (currentNoteId st = Some noteId) then
                match notes st with
                | first :: _ =>
                    (Resolved tt, renderNoteList "" (openNote (id first) st))
                | [] =>
                    await (createNewNote now iso saved st) (fun _ st =>
                      (Resolved tt, renderNoteList "" st))
                end
              else (Resolved tt, renderNoteList "" st))
          else (Resolved tt, st)
      | None => (Resolved tt, st)
      end
  | _, _ => (Resolved tt, st)
  end.

(** The click listener of an [<li>]. *)
Definition li_click (li : Li) (st : State) : State :=
  openNote (id (listener li)) st.

(** A click on the [k]-th entry of the list: the listener of the [<li>]
    runs first, then the event bubbles to [#noteList]. *)
Definition click_entry (shift : bool) (k : nat) (now : Z) (iso : string)
    (deleted saved : option string) (st : State) : promise unit * State :=
  match noteList_children st !! k with
  | Some li =>
      noteList_click (mkEvent shift (Some li)) now iso deleted saved (li_click li st)
  | None => (Resolved tt, st)
  end.

(** The [input] listener of the search field; [value] is
    [e.target.value]. *)
Definition searchInput_input (value : string) (st : State) : State :=
  renderNoteList (toLowerCase value) st.

(** The click listener of the New note button. *)
Definition newNoteBtn_click (now : Z) (iso : string) (saved : option string)
    (st : State) : promise unit * State :=
  await (createNewNote now iso saved st) (fun _ st => (Resolved tt, st)).

End Platform.

End App.

(** ** The second copy of the controller

    The script that registers the service worker declares the same state and
    the same [renderNoteList], [openNote] and [renderPreview] as [app.js],
    character for character; it creates a note in the click listener of the
    New note button itself, and its delete listener differs from the one of
    [app.js]. *)
Module Part000.
Import App.

Section Platform.
Context {platform : ToLowerCase}.

(** The click listener of the New note button (Create new note). *)
Definition newNoteBtn_click (now : Z) (iso : string) (saved : option string)
    (st : State) : promise unit * State :=
  let newNote :=
    {| id := toString now; title := "Untitled"; content := ""; updatedAt := iso |} in
  await (saveNote newNote saved st) (fun _ st =>
    let st := set_notes st (newNote :: notes st) in
    (Resolved tt, openNote (id newNote) st)).

(** The click listener of [#noteList] (Delete note, Shift+Click);
    [deleted] is the outcome of the requests of [deleteNote]. *)
Definition noteList_click (e : MouseEvent) (deleted : option string) (st : State)
  : promise unit * State :=
  match shiftKey e, target e with
  | true, Some li =>
      match find (fun n => title n = textContent li) (notes st) with
      | Some found =>
          let noteId := id found in
          if truthy noteId then
            await (deleteNote noteId deleted st) (fun _ st =>
              let st :=
                set_notes st (List.filter (fun n => bool_decide (id n <> noteId)) (notes st)) in
              let st :=
                if bool_decide (currentNoteId st = Some noteId) then
                  mkState None (notes st) "" "" (noteList_children st)
                    (preview_innerHTML st) (window st)
                else st in
              (Resolved tt, renderNoteList "" st))
          else (Resolved tt, st)
      | None => (Resolved tt, st)
      end
  | _, _ => (Resolved tt, st)
  end.

(** A click on the [k]-th entry of the list: the listener of the [<li>]
    first, then the one of [#noteList]. *)
Definition click_entry (shift : bool) (k : nat) (deleted : option string)
    (st : State) : promise unit * State :=
  match noteList_children st !! k with
  | Some li => noteList_click (mkEvent shift (Some li)) deleted (li_click li st)
  | None => (Resolved tt, st)
  end.

End Platform.

End Part000.

(** ** Sequences of creations *)

(** The note that [createNewNote] builds at the clock readings [now] and
    [iso]. *)
Definition fresh_note (now : Z) (iso : string) : Note :=
  {| id := toString now; title := "Untitled"; content := ""; updatedAt := iso |}.

(** The error with which a call of [db.js] rejects, if it does: what the
    environment answers to its requests when the browser has IndexedDB.  The
    fallback store makes no request. *)
Definition failing (requestError : option string) (w : Db.Window) : option string :=
  match Db.indexedDB w with
  | Some _ => requestError
  | None => None
  end.

(** The invocations of [createNewNote] whose save the store accepts, among
    those at the clock readings [clock], when [saved] lists the outcomes of
    their saves in order (a save beyond the list is accepted). *)
Fixpoint accepted (clock : list (Z * string)) (saved : list (option string))
    (w : Db.Window) : list (Z * string) :=
  match clock with
  | [] => []
  | reading :: clock' =>
      match failing (default None (head saved)) w with
      | Some _ => accepted clock' (tail saved) w
      | None => reading :: accepted clock' (tail saved) w
      end
  end.

Section Platform.
Context {platform : ToLowerCase}.

(** One invocation of [createNewNote] after the other, each at its own pair
    of clock readings and with its own outcome of the save. *)
Fixpoint createNotes (clock : list (Z * string)) (saved : list (option string))
    (st : App.State) : App.State :=
  match clock with
  | [] => st
  | (now, iso) :: clock' =>
      createNotes clock' (tail saved)
        (snd (App.createNewNote now iso (default None (head saved)) st))
  end.

(** The notes that the invocations created: the ones that stand in the
    notes array in front of those of [st]. *)
Definition created (clock : list (Z * string)) (saved : list (option string))
    (st : App.State) : list Note :=
  let after := App.notes (createNotes clock saved st) in
  take (length after - length (App.notes st)) after.

End Platform.

(** ** Scenarios *)

(** The page before any note exists, in a browser without IndexedDB and with
    nothing under the key ['simpleNotes']. *)
Definition emptyPage : App.State :=
  App.mkState None [] "" "" [] "" (Db.mkWindow None None).

Definition untitled1 : Note := mkNote "1" "Untitled" "" "T1".
Definition untitled2 : Note := mkNote "2" "Untitled" "" "T2".

(** Two notes of different titles. *)
Definition shopping : Note := mkNote "2" "Shopping" "milk" "T2".
Definition ideas : Note := mkNote "1" "Ideas" "" "T1".

Section Platform.
Context {platform : ToLowerCase}.

(** The page after two clicks on New note, at the clock readings 1 and 2:
    two notes, both with the default title. *)
Definition twoUntitled : App.State :=
  snd (App.newNoteBtn_click 2 "T2" None
         (snd (App.newNoteBtn_click 1 "T1" None emptyPage))).

(** A page with the two notes of different titles, the first of them
    open. *)
Definition twoTitled : App.State :=
  App.renderNoteList ""
    (App.mkState (Some "2") [shopping; ideas] "Shopping" "milk" [] "milk"
       (Db.mkWindow None (Some [ideas; shopping]))).

End Platform.

(** ** The vocabulary of the specification *)


Section Platform.
Context {platform : ToLowerCase}.



End Platform.

(** The notes on display: those of the entries of the list, in order. *)
Definition displayed (st : App.State) : list Note :=
  App.listener <$> App.noteList_children st.

(** ** The rest of db.js and of the controller *)

(** [initDB]: without IndexedDB there is nothing to open; otherwise the
    database is opened (and its object store created on upgrade), which
    fails with the error of the request, [requestError], if the environment
    answers one. *)
Definition initDB (requestError : option string) (w : Db.Window) : promise unit :=
  match Db.indexedDB w with
  | None => Resolved tt
  | Some db =>
      match requestError with
      | Some e => Rejected e
      | None => Resolved tt
      end
  end.

(** The functions and listeners of [app.js] that the note list does not
    need. *)
Module AppRest.
Import App.

Section Platform.
Context {platform : ToLowerCase}.

(** Load all notes.  The body is wrapped in [try]/[catch]: an error is
    logged and the promise of [loadNotes] resolves all the same.  [listed]
    is the outcome of the requests of [getNotes]; [now], [iso] and [saved]
    are the clock readings and the outcome of the [createNewNote] it may
    call. *)
Definition loadNotes (now : Z) (iso : string) (listed saved : option string)
    (st : State) : promise unit * State :=
  match Db.getNotes listed (window st) with
  | Rejected _ => (Resolved tt, st)
  | Resolved loaded =>
      let st := renderNoteList "" (set_notes st loaded) in
      match notes st with
      | first :: _ => (Resolved tt, openNote (id first) st)
      | [] =>
          (* Create first note if none exists *)
          match createNewNote now iso saved st with
          | (Rejected _, st) => (Resolved tt, st)
          | (Resolved _, st) => (Resolved tt, st)
          end
      end
  end.

(** The listener of [DOMContentLoaded], up to the registration of the
    other listeners: [initDB] and [loadNotes] inside [try]/[catch].  The
    boolean tells whether the alert of the [catch] was shown.  [opened] is
    the outcome of the request of [initDB]. *)
Definition initialize (now : Z) (iso : string) (opened listed saved : option string)
    (st : State) : bool * State :=
  match initDB opened (window st) with
  | Rejected _ => (true, st)
  | Resolved _ =>
      match loadNotes now iso listed saved st with
      | (Rejected _, st) => (true, st)
      | (Resolved _, st) => (false, st)
      end
  end.

(** Save current note; [iso] is the value of [new Date().toISOString()],
    [saved] the outcome of the requests of [saveNote]. *)
Definition saveCurrentNote (iso : string) (saved : option string) (st : State)
  : promise unit * State :=
  match currentNoteId st with
  | Some current =>
      if truthy current then
        let note :=
          {| id := current; title := noteTitle_value st;
             content := editor_value st; updatedAt := iso |} in
        await (saveNote note saved st) (fun _ st =>
          let st :=
            set_notes st
              (map (fun n => if bool_decide (id n = current) then note else n) (notes st)) in
          (Resolved tt, renderNoteList "" st))
      else (Resolved tt, st)
  | None => (Resolved tt, st)
  end.

End Platform.

(** What a click on the export button does: nothing, or the download of a
    file with a name and a text, or the [TypeError] of reading [content]
    off [undefined]. *)
Inductive exported :=
| NoDownload
| Download (name text : string)
| TypeError.

(** The click listener of the export button. *)
Definition exportBtn_click (st : State) : exported :=
  match currentNoteId st with
  | Some current =>
      if truthy current then
        match find (fun n => id n = current) (notes st) with
        | Some note => Download (title note +:+ ".md") (content note)
        | None => TypeError
        end
      else NoDownload
  | None => NoDownload
  end.

(** Whether the class lists of [#preview] and [#editor] hold ['hidden']. *)
Record Hidden := mkHidden {
  preview_hidden : bool;
  editor_hidden : bool
}.

(** The click listener of the preview toggle. *)
Definition togglePreview_click (h : Hidden) (st : State) : Hidden * State :=
  let h := mkHidden (negb (preview_hidden h)) (negb (editor_hidden h)) in
  (h, if negb (preview_hidden h) then renderPreview st else st).

End AppRest.

(** The start of the second copy of the controller. *)
Module Part000Rest.
Import App.

Section Platform.
Context {platform : ToLowerCase}.

(** Load all notes: no [try], and no note is created for an empty store.
    [listed] is the outcome of the requests of [getNotes]. *)
Definition loadNotes (listed : option string) (st : State) : promise unit * State :=
  match Db.getNotes listed (window st) with
  | Rejected e => (Rejected e, st)
  | Resolved loaded =>
      let st := renderNoteList "" (set_notes st loaded) in
      match notes st with
      | first :: _ => (Resolved tt, openNote (id first) st)
      | [] => (Resolved tt, st)
      end
  end.

(** [initDB().then(() => loadNotes())]; [opened] is the outcome of the
    request of [initDB]. *)
Definition initialize (opened listed : option string) (st : State)
  : promise unit * State :=
  match initDB opened (window st) with
  | Rejected e => (Rejected e, st)
  | Resolved _ => loadNotes listed st
  end.

End Platform.

End Part000Rest.

(** ** The two stores side by side *)

(** The object store that holds the records of an array of notes, each
    under its [id]. *)
Definition as_objectStore (l : list Note) : gmap string Note :=
  list_to_map ((fun n => (id n, n)) <$> l).

(** An object store with the key path ['id']: each record is kept under its
    own [id]. *)
Definition keyed (m : gmap string Note) : Prop :=
  forall k n, m !! k = Some n -> id n = k.

(** A browser with IndexedDB, whose object store holds the records [m]. *)
Definition withIndexedDB (m : gmap string Note) (item : option (list Note))
  : Db.Window :=
  Db.mkWindow (Some (Db.mkIDB m)) item.

(** The state of a page as the script finds it: nothing open, no notes. *)
Definition startState (titleField editor : string) (children : list App.Li)
    (html : string) (w : Db.Window) : App.State :=
  App.mkState None [] titleField editor children html w.

(** ** The texts of the preview *)

(** The characters of a string. *)
Definition chars (s : string) : list ascii := String.list_ascii_of_string s.

(** A text without the characters that start a construct of the preview:
    [#], [*] and the opening bracket. *)
Definition markup_free (s : string) : Prop :=
  Forall (fun c => c <> "#"%char /\ c <> "*"%char /\ c <> "["%char) (chars s).

(** A text without the characters that start emphasis or a link: [*] and
    the opening bracket. *)
Definition inline_free (s : string) : Prop :=
  Forall (fun c => c <> "*"%char /\ c <> "["%char) (chars s).

(** A text without line terminators. *)
Definition one_line (s : string) : Prop :=
  Forall (fun c => RegExp.LineTerminator c = false) (chars s).

(** [r] matches nowhere in [s], when [prev] is the character before [s]. *)
Fixpoint unmatched (r : RegExp.regex) (prev : option ascii) (s : string) : Prop :=
  RegExp.exec r prev s [] (fun _ s' cs => Some (s', cs)) = None /\
  match s with
  | EmptyString => True
  | String c rest => unmatched r (Some c) rest
  end.

(** ** A platform for the concrete scenarios

    The fold of the letters A-Z.  On text of ASCII characters that is what
    the method of the platform computes; the lemmas below that evaluate a
    concrete page, all on such text, run with it.  No theorem about the code
    in general depends on it. *)
Definition lower_char (c : ascii) : ascii :=
  let n := Ascii.N_of_ascii c in
  if (65 <=? n)%N && (n <=? 90)%N then Ascii.ascii_of_N (n + 32) else c.

Fixpoint foldAZ (s : string) : string :=
  match s with
  | EmptyString => EmptyString
  | String c s' => String (lower_char c) (foldAZ s')
  end.

#[global] Instance foldAZ_platform : ToLowerCase := foldAZ.

(** * Properties *)

(** ** Arrays *)

Section Arrays.
Context {A : Type} (P : A -> Prop) `{forall x, Decision (P x)}.

Lemma find_None (l : list A) :
  find P l = None <-> forall x, x ∈ l -> ~ P x.
Proof.
  unfold find. rewrite fmap_None, list_find_None, Forall_forall. reflexivity.
Qed.

Lemma find_head (x : A) (l : list A) : P x -> find P (x :: l) = Some x.
Proof. intros HP. unfold find. simpl. rewrite decide_True by assumption. reflexivity. Qed.

(** [Array.prototype.filter] with a test that holds throughout. *)
Lemma filter_all (f : A -> bool) (l : list A) :
  (forall x, x ∈ l -> f x = true) -> List.filter f l = l.
Proof.
  induction l as [|x l IH]; intros Hl; simpl; [reflexivity|].
  rewrite Hl by left. f_equal. apply IH. intros y Hy. apply Hl. right. exact Hy.
Qed.

End Arrays.

(** ** The fallback store *)

(** What [saveNote] leaves under the key when the browser has no IndexedDB. *)
Lemma saveNote_fallback (n : Note) (requestError : option string)
    (item : option (list Note)) :
  Db.saveNote n requestError (Db.mkWindow None item) =
    (Resolved tt,
     Db.mkWindow None
       (Some (match list_find (fun r => id r = id n) (default [] item) with
              | Some (i, _) => <[i := n]> (default [] item)
              | None => default [] item ++ [n]
              end))).
Proof.
  unfold Db.saveNote, Db.set_localStorage, Db.parseItem, findIndex. simpl.
  destruct (list_find _ _) as [[i r]|]; simpl.
  - assert ((0 <=? Z.of_nat i)%Z = true) as -> by (apply Z.leb_le; lia).
    rewrite Nat2Z.id. reflexivity.
  - reflexivity.
Qed.

(** C5. Round trip on the fallback store: whatever the key holds, saving a
    note resolves, and listing all notes afterwards resolves with an array
    that contains the note saved, hence a record with its [id], [title] and
    [content]. *)
Theorem fallback_save_then_list (n : Note) (item : option (list Note))
    (saved listed : option string) :
  let w := Db.mkWindow None item in
  fst (Db.saveNote n saved w) = Resolved tt /\
  exists l, Db.getNotes listed (snd (Db.saveNote n saved w)) = Resolved l /\
    n ∈ l /\
    exists m, m ∈ l /\ id m = id n /\ title m = title n /\ content m = content n.
Proof.
  intros w. unfold w. rewrite saveNote_fallback. simpl. split; [reflexivity|].
  eexists. split; [reflexivity|].
  assert (n ∈ match list_find (fun r => id r = id n) (default [] item) with
              | Some (i, _) => <[i := n]> (default [] item)
              | None => default [] item ++ [n]
              end) as Hin.
  { destruct (list_find _ _) as [[i r]|] eqn:Hf.
    - apply list_find_Some in Hf as (Hl & _ & _).
      apply list_elem_of_lookup. exists i.
      apply list_lookup_insert_eq. eapply lookup_lt_Some. exact Hl.
    - apply elem_of_app. right. apply list_elem_of_singleton. reflexivity. }
  split; [exact Hin|]. exists n. auto.
Qed.

(** C6. [save] on the fallback store is an upsert of whole records.  When a
    record with the [id] of [n] is stored, the first such record is replaced
    by [n] itself, all its fields at once, and every other position keeps its
    record; when no record has that [id], [n] is appended. *)
Theorem fallback_save_upsert (n : Note) (item : option (list Note))
    (saved : option string) :
  let w := Db.mkWindow None item in
  let before := Db.parseItem w in
  let after := Db.parseItem (snd (Db.saveNote n saved w)) in
  ((exists r, r ∈ before /\ id r = id n) ->
     exists i r, before !! i = Some r /\ id r = id n /\
       (forall j r', before !! j = Some r' -> (j < i)%nat -> id r' <> id n) /\
       after !! i = Some n /\
       length after = length before /\
       forall j, j <> i -> after !! j = before !! j)
  /\
  ((forall r, r ∈ before -> id r <> id n) -> after = before ++ [n]).
Proof.
  intros w before after. unfold after, before, w. rewrite saveNote_fallback.
  unfold Db.parseItem. simpl. split.
  - intros (r & Hr & Hid).
    destruct (list_find (fun r => id r = id n) (default [] item)) as [[i x]|] eqn:Hf.
    + apply list_find_Some in Hf as (Hl & Hx & Hfirst).
      exists i, x. split; [exact Hl|]. split; [exact Hx|].
      split; [intros j r' Hj Hlt; eapply Hfirst; eassumption|].
      split; [apply list_lookup_insert_eq; eapply lookup_lt_Some; exact Hl|].
      split; [apply length_insert|].
      intros j Hj. apply list_lookup_insert_ne. congruence.
    + apply list_find_None in Hf. rewrite Forall_forall in Hf.
      exfalso. exact (Hf r Hr Hid).
  - intros Hnone.
    assert (list_find (fun r => id r = id n) (default [] item) = None) as ->;
      [|reflexivity].
    apply list_find_None, Forall_forall. exact Hnone.
Qed.

(** Saving keeps the [id]s of the stored records pairwise distinct, so the
    record that an upsert replaces is the only one with its [id]. *)
Lemma fallback_save_keeps_ids_distinct (n : Note) (item : option (list Note))
    (saved : option string) :
  let w := Db.mkWindow None item in
  NoDup (id <$> Db.parseItem w) ->
  NoDup (id <$> Db.parseItem (snd (Db.saveNote n saved w))).
Proof.
  intros w Hnodup. unfold w in *. rewrite saveNote_fallback.
  unfold Db.parseItem in *. simpl in *.
  destruct (list_find (fun r => id r = id n) (default [] item)) as [[i x]|] eqn:Hf.
  - apply list_find_Some in Hf as (Hl & Hx & _).
    rewrite list_fmap_insert, list_insert_id; [exact Hnodup|].
    rewrite list_lookup_fmap, Hl. simpl. congruence.
  - apply list_find_None in Hf. rewrite Forall_forall in Hf.
    rewrite fmap_app. apply NoDup_app. split; [exact Hnodup|].
    split; [|apply NoDup_singleton].
    intros y Hy Hy'. apply list_elem_of_singleton in Hy'. subst y.
    apply list_elem_of_fmap in Hy as (r & Hid & Hr).
    apply (Hf r Hr). congruence.
Qed.

(** C7. Deleting an [id] that no stored record carries, on the fallback
    store: the promise resolves, and listing all notes gives the same array
    as before. *)
Theorem fallback_delete_absent (i : string) (item : option (list Note))
    (deleted listed : option string) :
  (forall r, r ∈ default [] item -> id r <> i) ->
  let w := Db.mkWindow None item in
  fst (Db.deleteNote i deleted w) = Resolved tt /\
  Db.getNotes listed (snd (Db.deleteNote i deleted w)) = Db.getNotes listed w.
Proof.
  intros Habsent w. unfold w, Db.deleteNote, Db.getNotes, Db.parseItem. simpl.
  split; [reflexivity|]. f_equal.
  apply filter_all. intros r Hr. apply bool_decide_eq_true. exact (Habsent r Hr).
Qed.

Lemma fallback_delete_absent_witness :
  let item := Some [mkNote "1" "Untitled" "" "T1"] in
  let w := Db.mkWindow None item in
  (forall r, r ∈ default [] item -> id r <> "9") /\
  fst (Db.deleteNote "9" None w) = Resolved tt /\
  Db.getNotes None (snd (Db.deleteNote "9" None w)) = Db.getNotes None w.
Proof.
  intros item w.
  assert (forall r, r ∈ default [] item -> id r <> "9") as Habsent.
  { intros r Hr. apply list_elem_of_singleton in Hr. subst r. discriminate. }
  split; [exact Habsent|].
  exact (fallback_delete_absent "9" item None None Habsent).
Defined.

(** ** The preview *)

(** C4. The markdown scenario: the heading rule turns the line into an
    [h1] element that still holds the bold markers, the bold rule then
    rewrites them inside it, and the text ["# Hi **there**"] renders to
    ["<h1>Hi <strong>there</strong></h1>"], which [renderPreview] puts in
    the preview pane. *)
Theorem markdown_heading_bold :
  RegExp.replace App.re_h1 "<h1>$1</h1>" "# Hi **there**" = "<h1>Hi **there**</h1>" /\
  RegExp.replace App.re_strong "<strong>$1</strong>" "<h1>Hi **there**</h1>"
    = "<h1>Hi <strong>there</strong></h1>" /\
  App.markdown "# Hi **there**" = "<h1>Hi <strong>there</strong></h1>" /\
  forall current notes title children html w,
    App.preview_innerHTML
      (App.renderPreview
         (App.mkState current notes title "# Hi **there**" children html w))
    = "<h1>Hi <strong>there</strong></h1>".
Proof.
  split; [vm_compute; reflexivity|].
  split; [vm_compute; reflexivity|].
  split; [vm_compute; reflexivity|].
  intros. unfold App.renderPreview. simpl. vm_compute. reflexivity.
Qed.

(** ** The note list *)

Section Platform.
Context {platform : ToLowerCase}.

(** C9. Rendering the list with a filter leaves the model alone: the notes
    array is the same afterwards (same notes, same order, same fields), as
    are the selection, the two fields, the preview and the store; the state
    differs in the displayed entries only.  The same holds for the listener
    of the search field. *)
Theorem renderNoteList_keeps_notes (filter : string) (st : App.State) :
  App.notes (App.renderNoteList filter st) = App.notes st /\
  App.renderNoteList filter st =
    App.set_noteList st (App.noteList_children (App.renderNoteList filter st)) /\
  App.notes (App.searchInput_input filter st) = App.notes st /\
  App.searchInput_input filter st =
    App.set_noteList st (App.noteList_children (App.searchInput_input filter st)).
Proof.
  unfold App.searchInput_input, App.renderNoteList, App.set_noteList. simpl.
  repeat split.
Qed.

(** C10. Opening an [id] that no note of the list carries changes nothing:
    the state after the call is the state before it, so the selection, the
    title field, the editor and the notes are as they were. *)
Theorem openNote_unknown_id (i : string) (st : App.State) :
  (forall n, n ∈ App.notes st -> id n <> i) ->
  App.openNote i st = st /\
  App.currentNoteId (App.openNote i st) = App.currentNoteId st /\
  App.noteTitle_value (App.openNote i st) = App.noteTitle_value st /\
  App.editor_value (App.openNote i st) = App.editor_value st /\
  App.notes (App.openNote i st) = App.notes st.
Proof.
  intros Hunknown.
  assert (App.openNote i st = st) as ->; [|repeat split].
  unfold App.openNote.
  assert (find (fun n => id n = i) (App.notes st) = None) as ->; [|reflexivity].
  apply find_None. exact Hunknown.
Qed.

End Platform.

Lemma openNote_unknown_id_witness :
  (forall n, n ∈ App.notes twoUntitled -> id n <> "7") /\
  App.openNote "7" twoUntitled = twoUntitled.
Proof.
  assert (forall n, n ∈ App.notes twoUntitled -> id n <> "7") as Hunknown.
  { intros n Hn. vm_compute in Hn.
    apply elem_of_cons in Hn as [->|Hn]; [discriminate|].
    apply list_elem_of_singleton in Hn. subst n. discriminate. }
  split; [exact Hunknown|].
  exact (proj1 (openNote_unknown_id "7" twoUntitled Hunknown)).
Defined.


(** ** Strings *)

Lemma app_String (c : ascii) (a b : string) :
  String c a +:+ b = String c (a +:+ b).
Proof. reflexivity. Qed.



Section Platform.
Context {platform : ToLowerCase}.



Lemma listener_createLi (current : option string) (l : list Note) :
  App.listener <$> (App.createLi current <$> l) = l.
Proof.
  induction l as [|n l IH]; [reflexivity|].
  rewrite !fmap_cons, IH. reflexivity.
Qed.


End Platform.



(** ** Creation *)

Lemma saveNote_failing (n : Note) (requestError : option string) (w : Db.Window) :
  match failing requestError w with
  | Some e => Db.saveNote n requestError w = (Rejected e, w)
  | None =>
      fst (Db.saveNote n requestError w) = Resolved tt /\
      forall r, failing r (snd (Db.saveNote n requestError w)) = failing r w
  end.
Proof.
  unfold failing, Db.saveNote. destruct (Db.indexedDB w) as [db|] eqn:Hdb.
  - destruct requestError; [reflexivity|].
    split; [reflexivity|]. intros r. reflexivity.
  - split; [reflexivity|]. intros r. simpl. rewrite Hdb. reflexivity.
Qed.

Lemma deleteNote_failing (i : string) (requestError : option string) (w : Db.Window) :
  match failing requestError w with
  | Some e => Db.deleteNote i requestError w = (Rejected e, w)
  | None =>
      fst (Db.deleteNote i requestError w) = Resolved tt /\
      forall r, failing r (snd (Db.deleteNote i requestError w)) = failing r w
  end.
Proof.
  unfold failing, Db.deleteNote. destruct (Db.indexedDB w) as [db|] eqn:Hdb.
  - destruct requestError; [reflexivity|].
    split; [reflexivity|]. intros r. reflexivity.
  - split; [reflexivity|]. intros r. simpl. rewrite Hdb. reflexivity.
Qed.

(** The invocations that the store accepts depend on the window only
    through the outcome of its requests. *)
Lemma accepted_ext (clock : list (Z * string)) (saved : list (option string))
    (w w' : Db.Window) :
  (forall r, failing r w' = failing r w) ->
  accepted clock saved w' = accepted clock saved w.
Proof.
  intros Hsame. revert saved. induction clock as [|reading clock IH]; intros saved.
  - reflexivity.
  - cbn [accepted]. rewrite Hsame, IH. reflexivity.
Qed.

(** When no save fails, every invocation is accepted. *)
Lemma accepted_all (clock : list (Z * string)) (saved : list (option string))
    (w : Db.Window) :
  Forall (fun r => failing r w = None) saved ->
  accepted clock saved w = clock.
Proof.
  revert saved. induction clock as [|reading clock IH]; intros saved Hsaved.
  - reflexivity.
  - cbn [accepted]. destruct Hsaved as [|r saved Hr Hsaved].
    + change (default None (head (@nil (option string)))) with (@None string).
      replace (failing None w) with (@None string)
        by (unfold failing; destruct (Db.indexedDB w); reflexivity).
      rewrite IH by constructor. reflexivity.
    + change (default None (head (r :: saved))) with r.
      change (tail (r :: saved)) with saved.
      rewrite Hr, IH by exact Hsaved. reflexivity.
Qed.

(** The decimal text of an integer determines it. *)
Lemma toString_inj (a b : Z) : toString a = toString b -> a = b.
Proof. unfold toString. apply (inj pretty). Qed.

Section Platform.
Context {platform : ToLowerCase}.

Lemma openNote_notes (i : string) (st : App.State) :
  App.notes (App.openNote i st) = App.notes st /\
  App.window (App.openNote i st) = App.window st.
Proof.
  unfold App.openNote. destruct (find _ _); split; reflexivity.
Qed.

(** What one invocation of [createNewNote] does to the notes array. *)
Lemma createNewNote_notes (now : Z) (iso : string) (saved : option string)
    (st : App.State) :
  App.notes (snd (App.createNewNote now iso saved st)) =
    match failing saved (App.window st) with
    | Some _ => App.notes st
    | None => fresh_note now iso :: App.notes st
    end /\
  forall r, failing r (App.window (snd (App.createNewNote now iso saved st)))
            = failing r (App.window st).
Proof.
  unfold App.createNewNote, App.saveNote.
  pose proof (saveNote_failing (fresh_note now iso) saved (App.window st)) as Hsave.
  fold (fresh_note now iso).
  destruct (failing saved (App.window st)) as [e|] eqn:Hfail.
  - rewrite Hsave. simpl. split; [reflexivity|]. intros r. reflexivity.
  - destruct Hsave as [Hres Hfail'].
    destruct (Db.saveNote (fresh_note now iso) saved (App.window st)) as [p w].
    simpl in Hres, Hfail'. subst p. cbn [await snd].
    destruct (openNote_notes (id (fresh_note now iso))
                (App.set_notes (App.set_window st w)
                   (fresh_note now iso :: App.notes (App.set_window st w))))
      as [-> ->].
    split; [reflexivity|exact Hfail'].
Qed.

Lemma createNotes_notes (clock : list (Z * string)) (saved : list (option string))
    (st : App.State) :
  App.notes (createNotes clock saved st) =
    reverse (uncurry fresh_note <$> accepted clock saved (App.window st))
    ++ App.notes st.
Proof.
  revert saved st. induction clock as [|[now iso] clock IH]; intros saved st.
  - reflexivity.
  - cbn [createNotes accepted]. rewrite IH.
    destruct (createNewNote_notes now iso (default None (head saved)) st)
      as [-> Hsame].
    rewrite (accepted_ext _ _ _ _ Hsame).
    destruct (failing (default None (head saved)) (App.window st)); [reflexivity|].
    rewrite fmap_cons, reverse_cons, <- app_assoc. reflexivity.
Qed.

Lemma created_notes (clock : list (Z * string)) (saved : list (option string))
    (st : App.State) :
  created clock saved st =
    reverse (uncurry fresh_note <$> accepted clock saved (App.window st)).
Proof.
  unfold created. rewrite createNotes_notes, length_app.
  replace (_ + _ - _)%nat with
    (length (reverse (uncurry fresh_note <$> accepted clock saved (App.window st))))
    by lia.
  apply take_app_length.
Qed.

(** Both copies of the controller create a note in the same way. *)
Lemma part000_creates_like_app (now : Z) (iso : string) (saved : option string)
    (st : App.State) :
  Part000.newNoteBtn_click now iso saved st = App.createNewNote now iso saved st.
Proof. reflexivity. Qed.

(** The accepted invocations are among the invocations, in their order. *)
Lemma accepted_sublist (clock : list (Z * string)) (saved : list (option string))
    (w : Db.Window) :
  sublist (accepted clock saved w) clock.
Proof.
  revert saved. induction clock as [|reading clock IH]; intros saved.
  - constructor.
  - cbn [accepted]. destruct (failing _ w).
    + apply sublist_cons, IH.
    + apply sublist_skip, IH.
Qed.

(** C1, as the code has it.  Invocations of [createNewNote] at pairwise
    distinct readings of [Date.now()] create notes with pairwise distinct
    [id]s, the decimal texts of the readings: one note per invocation whose
    save the store accepts, so one per invocation when no save fails (an
    invocation whose save fails creates none). *)
Theorem distinct_readings_distinct_ids (clock : list (Z * string))
    (saved : list (option string)) (st : App.State) :
  NoDup clock.*1 ->
  NoDup (id <$> created clock saved st) /\
  id <$> created clock saved st =
    reverse (toString <$> (accepted clock saved (App.window st)).*1) /\
  length (created clock saved st) =
    length (accepted clock saved (App.window st)) /\
  (Forall (fun r => failing r (App.window st) = None) saved ->
   id <$> created clock saved st = reverse (toString <$> clock.*1) /\
   length (created clock saved st) = length clock).
Proof.
  intros Hclock. rewrite created_notes.
  assert (forall l : list (Z * string),
           id <$> reverse (uncurry fresh_note <$> l) = reverse (toString <$> l.*1))
    as Hids.
  { intros l. rewrite fmap_reverse. f_equal. rewrite <- !list_fmap_compose.
    apply list_fmap_ext. intros _ [now iso] _. reflexivity. }
  split; [|split; [|split]].
  - rewrite Hids, reverse_Permutation.
    apply (@NoDup_fmap_2 _ _ toString toString_inj).
    eapply sublist_NoDup; [exact Hclock|apply fmap_sublist, accepted_sublist].
  - apply Hids.
  - rewrite length_reverse, length_fmap. reflexivity.
  - intros Hsaved. rewrite (accepted_all _ _ _ Hsaved). split.
    + apply Hids.
    + rewrite length_reverse, length_fmap. reflexivity.
Qed.

End Platform.

Lemma distinct_readings_distinct_ids_witness :
  NoDup [(1%Z, "T1"); (2%Z, "T2")].*1 /\
  NoDup (id <$> created [(1%Z, "T1"); (2%Z, "T2")] [] emptyPage).
Proof.
  assert (NoDup [(1%Z, "T1"); (2%Z, "T2")].*1) as Hclock.
  { cbn [fmap list_fmap fst]. apply NoDup_cons. split; [|apply NoDup_singleton].
    intros Hin. apply list_elem_of_singleton in Hin. discriminate. }
  split; [exact Hclock|].
  exact (proj1 (distinct_readings_distinct_ids _ [] emptyPage Hclock)).
Defined.

(** C1 fails as stated: two invocations within the same millisecond create
    two notes that carry the same [id]. *)
Lemma same_reading_same_id :
  length (created [(1000%Z, "T"); (1000%Z, "T")] [] emptyPage) = 2%nat /\
  ~ NoDup (id <$> created [(1000%Z, "T"); (1000%Z, "T")] [] emptyPage).
Proof.
  assert (id <$> created [(1000%Z, "T"); (1000%Z, "T")] [] emptyPage
          = ["1000"; "1000"])
    as Hids by (vm_compute; reflexivity).
  split; [vm_compute; reflexivity|].
  rewrite Hids. intros Hnodup. apply NoDup_cons in Hnodup as [Hnotin _].
  apply Hnotin. left.
Qed.

(** ** Deletion *)

Section Platform.
Context {platform : ToLowerCase}.

(** The delete listener of [app.js] keeps a note open.  When the listener
    deletes the open note and the store answers, the first remaining note is
    opened, its title and content loaded; when no note remains, a fresh note
    titled ["Untitled"] is created and opened. *)
Lemma app_delete_reopens (li : App.Li) (now : Z) (iso : string)
    (deleted saved : option string) (st : App.State) (found : Note) :
  find (fun n => title n = App.textContent li) (App.notes st) = Some found ->
  truthy (id found) = true ->
  App.currentNoteId st = Some (id found) ->
  failing deleted (App.window st) = None ->
  failing saved (App.window st) = None ->
  let remaining :=
    List.filter (fun n => bool_decide (id n <> id found)) (App.notes st) in
  let result :=
    App.noteList_click (App.mkEvent true (Some li)) now iso deleted saved st in
  fst result = Resolved tt /\
  match remaining with
  | first :: _ =>
      App.notes (snd result) = remaining /\
      App.currentNoteId (snd result) = Some (id first) /\
      App.noteTitle_value (snd result) = title first /\
      App.editor_value (snd result) = content first
  | [] =>
      App.notes (snd result) = [fresh_note now iso] /\
      App.currentNoteId (snd result) = Some (id (fresh_note now iso)) /\
      App.noteTitle_value (snd result) = "Untitled" /\
      App.editor_value (snd result) = ""
  end.
Proof.
  intros Hfound Hid Hcurrent Hfail Hfails remaining result.
  unfold result, App.noteList_click. cbn [App.shiftKey App.target].
  rewrite Hfound, Hid. unfold App.deleteNote.
  pose proof (deleteNote_failing (id found) deleted (App.window st)) as Hdel.
  rewrite Hfail in Hdel. destruct Hdel as [Hres Hfail'].
  destruct (Db.deleteNote (id found) deleted (App.window st)) as [p w].
  cbn [fst snd] in Hres, Hfail'. subst p. cbn [await].
  cbn [App.set_notes App.set_window App.currentNoteId App.notes
       App.noteTitle_value App.editor_value App.noteList_children
       App.preview_innerHTML App.window].
  rewrite Hcurrent, bool_decide_eq_true_2 by reflexivity.
  fold remaining. destruct remaining as [|first rest] eqn:Hremaining.
  - unfold App.createNewNote, App.saveNote. fold (fresh_note now iso).
    cbn [App.set_notes App.set_window App.currentNoteId App.notes
         App.noteTitle_value App.editor_value App.noteList_children
         App.preview_innerHTML App.window].
    pose proof (saveNote_failing (fresh_note now iso) saved w) as Hsave.
    rewrite Hfail', Hfails in Hsave. destruct Hsave as [Hres _].
    destruct (Db.saveNote (fresh_note now iso) saved w) as [p w'].
    cbn [fst] in Hres. subst p. cbn [await].
    unfold App.openNote.
    cbn [App.set_notes App.set_window App.currentNoteId App.notes
         App.noteTitle_value App.editor_value App.noteList_children
         App.preview_innerHTML App.window].
    rewrite find_head by reflexivity.
    cbn. repeat split; reflexivity.
  - unfold App.openNote.
    cbn [App.set_notes App.set_window App.currentNoteId App.notes
         App.noteTitle_value App.editor_value App.noteList_children
         App.preview_innerHTML App.window].
    rewrite find_head by reflexivity.
    cbn. repeat split; reflexivity.
Qed.

(** The delete listener of the second copy leaves nothing open.  When it
    deletes the open note and the store answers, the selection is cleared and
    both fields are emptied, whether notes remain or not. *)
Lemma part000_delete_clears_selection (li : App.Li) (deleted : option string)
    (st : App.State) (found : Note) :
  find (fun n => title n = App.textContent li) (App.notes st) = Some found ->
  truthy (id found) = true ->
  App.currentNoteId st = Some (id found) ->
  failing deleted (App.window st) = None ->
  let result := Part000.noteList_click (App.mkEvent true (Some li)) deleted st in
  fst result = Resolved tt /\
  App.notes (snd result) =
    List.filter (fun n => bool_decide (id n <> id found)) (App.notes st) /\
  App.currentNoteId (snd result) = None /\
  App.noteTitle_value (snd result) = "" /\
  App.editor_value (snd result) = "".
Proof.
  intros Hfound Hid Hcurrent Hfail result.
  unfold result, Part000.noteList_click. cbn [App.shiftKey App.target].
  rewrite Hfound, Hid. unfold App.deleteNote.
  pose proof (deleteNote_failing (id found) deleted (App.window st)) as Hdel.
  rewrite Hfail in Hdel. destruct Hdel as [Hres _].
  destruct (Db.deleteNote (id found) deleted (App.window st)) as [p w].
  cbn [fst] in Hres. subst p. cbn [await].
  cbn [App.set_notes App.set_window App.currentNoteId App.notes
       App.noteTitle_value App.editor_value App.noteList_children
       App.preview_innerHTML App.window].
  rewrite Hcurrent, bool_decide_eq_true_2 by reflexivity.
  cbn. repeat split; reflexivity.
Qed.

(** C2, at the input that breaks it.  On a page with the notes Shopping
    (open) and Ideas, a shift-click on the entry of Shopping deletes it.
    The delete listener of the second copy of the controller then leaves no
    note open although Ideas remains, and clears both fields; the listener
    of [app.js] opens Ideas.  (The page is in a browser without IndexedDB,
    where no request is made: the outcomes [deleted] and [saved] are
    immaterial.) *)
Theorem part000_delete_leaves_nothing_open (deleted saved : option string) :
  App.currentNoteId twoTitled = Some "2" /\
  displayed twoTitled = [shopping; ideas] /\
  (let after := snd (Part000.click_entry true 0 deleted twoTitled) in
   App.notes after = [ideas] /\
   App.currentNoteId after = None /\
   App.noteTitle_value after = "" /\
   App.editor_value after = "") /\
  (let after := snd (App.click_entry true 0 3 "T3" deleted saved twoTitled) in
   App.notes after = [ideas] /\
   App.currentNoteId after = Some "1" /\
   App.noteTitle_value after = "Ideas").
Proof. vm_compute. repeat split; reflexivity. Qed.

(** C3, at the input that breaks it.  On the page with two notes that both
    carry the default title, a shift-click on the second entry (the note
    with [id] 1) removes the note of the first entry (the one with [id] 2)
    from the notes array and from the store, and keeps the note that was
    clicked; both copies of the controller do so. *)
Theorem shift_click_deletes_same_title_note (deleted saved : option string) :
  displayed twoUntitled = [untitled2; untitled1] /\
  Db.localStorage (App.window twoUntitled) = Some [untitled1; untitled2] /\
  (let after := snd (App.click_entry true 1 3 "T3" deleted saved twoUntitled) in
   App.notes after = [untitled1] /\
   Db.localStorage (App.window after) = Some [untitled1]) /\
  (let after := snd (Part000.click_entry true 1 deleted twoUntitled) in
   App.notes after = [untitled1] /\
   Db.localStorage (App.window after) = Some [untitled1]).
Proof. vm_compute. repeat split; reflexivity. Qed.

End Platform.

(** * Further properties of the code *)

(** ** Both stores *)

Lemma elem_of_getAll (m : gmap string Note) (r : Note) :
  r ∈ Db.getAll m <-> exists k, m !! k = Some r.
Proof.
  unfold Db.getAll. rewrite merge_sort_Permutation, list_elem_of_fmap. split.
  - intros ([k x] & -> & Hkx). exists k. apply elem_of_map_to_list. exact Hkx.
  - intros [k Hk]. exists (k, r). split; [reflexivity|].
    apply elem_of_map_to_list. exact Hk.
Qed.

Lemma keyed_insert (n : Note) (m : gmap string Note) :
  keyed m -> keyed (<[id n := n]> m).
Proof.
  intros Hm k r. rewrite lookup_insert. case_decide as Hk.
  - intros [= <-]. exact Hk.
  - apply Hm.
Qed.

Lemma keyed_delete (i : string) (m : gmap string Note) :
  keyed m -> keyed (delete i m).
Proof.
  intros Hm k r Hr. apply lookup_delete_Some in Hr as [_ Hr]. exact (Hm k r Hr).
Qed.

Lemma getAll_ids_distinct (m : gmap string Note) :
  keyed m -> NoDup (id <$> Db.getAll m).
Proof.
  intros Hm. unfold Db.getAll. rewrite merge_sort_Permutation.
  assert (id <$> (snd <$> map_to_list m) = fst <$> map_to_list m) as ->.
  { rewrite <- list_fmap_compose. apply list_fmap_ext.
    intros j [k n] Hj. simpl. apply Hm.
    apply elem_of_map_to_list. eapply list_elem_of_lookup_2. exact Hj. }
  apply NoDup_fst_map_to_list.
Qed.

(** X1. With a working IndexedDB (the requests of both calls succeed)
    whose records are kept under their [id]s, saving a note resolves, and
    the listing afterwards holds the note, holds no other record with its
    [id], and holds exactly the records of before under every other [id]. *)
Theorem indexedDB_save_then_list (n : Note) (m : gmap string Note)
    (item : option (list Note)) :
  keyed m ->
  let w := withIndexedDB m item in
  fst (Db.saveNote n None w) = Resolved tt /\
  exists l, Db.getNotes None (snd (Db.saveNote n None w)) = Resolved l /\
    n ∈ l /\
    (forall r, r ∈ l -> id r = id n -> r = n) /\
    (forall r, id r <> id n -> r ∈ l <-> r ∈ Db.getAll m) /\
    NoDup (id <$> l).
Proof.
  intros Hm w. unfold w, withIndexedDB, Db.saveNote, Db.getNotes, Db.set_objectStore.
  simpl. split; [reflexivity|]. eexists. split; [reflexivity|].
  pose proof (keyed_insert n m Hm) as Hm'.
  split; [|split; [|split]].
  - apply elem_of_getAll. exists (id n). apply lookup_insert_eq.
  - intros r Hr Hid. apply elem_of_getAll in Hr as [k Hk].
    pose proof (Hm' k r Hk) as Hkey. rewrite <- Hkey, Hid, lookup_insert_eq in Hk.
    congruence.
  - intros r Hid. rewrite !elem_of_getAll. split; intros [k Hk]; exists k.
    + rewrite lookup_insert_ne in Hk; [exact Hk|].
      intros <-. rewrite lookup_insert_eq in Hk. congruence.
    + rewrite lookup_insert_ne; [exact Hk|].
      intros <-. apply Hm in Hk. congruence.
  - apply getAll_ids_distinct. exact Hm'.
Qed.

Lemma keyed_singleton (n : Note) : keyed {[id n := n]}.
Proof. intros k r Hk. apply lookup_singleton_Some in Hk as [<- <-]. reflexivity. Qed.

Lemma indexedDB_save_then_list_witness :
  keyed {[id untitled1 := untitled1]} /\
  exists l,
    Db.getNotes None (snd (Db.saveNote untitled2 None
                             (withIndexedDB {[id untitled1 := untitled1]} None)))
      = Resolved l /\
    untitled2 ∈ l.
Proof.
  split; [apply keyed_singleton|].
  destruct (indexedDB_save_then_list untitled2 _ None (keyed_singleton untitled1))
    as (_ & l & Hl & Hin & _).
  exists l. split; [exact Hl|exact Hin].
Defined.

(** X2. With a working IndexedDB (the requests of both calls succeed)
    whose records are kept under their [id]s, deleting an [id] resolves, and
    the listing afterwards holds exactly the records of before that carry
    another [id]; an [id] that is not stored leaves the listing as it is. *)
Theorem indexedDB_delete_then_list (i : string) (m : gmap string Note)
    (item : option (list Note)) :
  keyed m ->
  let w := withIndexedDB m item in
  fst (Db.deleteNote i None w) = Resolved tt /\
  exists l, Db.getNotes None (snd (Db.deleteNote i None w)) = Resolved l /\
    (forall r, r ∈ l <-> r ∈ Db.getAll m /\ id r <> i) /\
    (m !! i = None -> l = Db.getAll m).
Proof.
  intros Hm w. unfold w, withIndexedDB, Db.deleteNote, Db.getNotes, Db.set_objectStore.
  simpl. split; [reflexivity|]. eexists. split; [reflexivity|]. split.
  - intros r. rewrite !elem_of_getAll. split.
    + intros [k Hk]. apply lookup_delete_Some in Hk as [Hne Hk].
      split; [exists k; exact Hk|]. apply Hm in Hk. congruence.
    + intros [[k Hk] Hid]. exists k. apply lookup_delete_Some.
      split; [|exact Hk]. apply Hm in Hk. congruence.
  - intros Hnone. rewrite delete_id by exact Hnone. reflexivity.
Qed.

Lemma indexedDB_delete_then_list_witness :
  keyed {[id untitled1 := untitled1]} /\
  Db.getNotes None
    (snd (Db.deleteNote "7" None (withIndexedDB {[id untitled1 := untitled1]} None)))
    = Resolved (Db.getAll {[id untitled1 := untitled1]}).
Proof.
  split; [apply keyed_singleton|].
  destruct (indexedDB_delete_then_list "7" _ None (keyed_singleton untitled1))
    as (_ & l & Hl & _ & Hsame).
  rewrite Hl. f_equal. apply Hsame. apply lookup_singleton_ne. discriminate.
Defined.

(** X3. While [window.indexedDB] exists the fallback is never used: no
    operation touches the item of [localStorage], and a call whose requests
    against the database fail (saving, deleting, listing, opening) rejects
    with the error and leaves everything as it was; a call whose requests
    succeed resolves. *)
Theorem indexedDB_never_falls_back (n : Note) (i : string)
    (requestError : option string) (w : Db.Window) (db : Db.IDBFactory) :
  Db.indexedDB w = Some db ->
  Db.localStorage (snd (Db.saveNote n requestError w)) = Db.localStorage w /\
  Db.localStorage (snd (Db.deleteNote i requestError w)) = Db.localStorage w /\
  match requestError with
  | Some e =>
      Db.saveNote n requestError w = (Rejected e, w) /\
      Db.deleteNote i requestError w = (Rejected e, w) /\
      Db.getNotes requestError w = Rejected e /\
      initDB requestError w = Rejected e
  | None =>
      fst (Db.saveNote n requestError w) = Resolved tt /\
      fst (Db.deleteNote i requestError w) = Resolved tt /\
      Db.getNotes requestError w = Resolved (Db.getAll (Db.objectStore db)) /\
      initDB requestError w = Resolved tt
  end.
Proof.
  intros Hdb. unfold Db.saveNote, Db.deleteNote, Db.getNotes, initDB. rewrite Hdb.
  destruct requestError; simpl; repeat split; reflexivity.
Qed.

Lemma indexedDB_never_falls_back_witness :
  let w := Db.mkWindow (Some (Db.mkIDB ∅)) (Some [untitled1]) in
  Db.indexedDB w = Some (Db.mkIDB ∅) /\
  Db.saveNote untitled2 (Some "AbortError") w = (Rejected "AbortError", w).
Proof.
  intros w. split; [reflexivity|].
  exact (proj1 (proj2 (proj2
    (indexedDB_never_falls_back untitled2 "1" (Some "AbortError") w _ eq_refl)))).
Defined.

(** ** More on the fallback store *)

Lemma deleteNote_fallback (i : string) (requestError : option string)
    (item : option (list Note)) :
  Db.deleteNote i requestError (Db.mkWindow None item) =
    (Resolved tt,
     Db.mkWindow None
       (Some (List.filter (fun r => bool_decide (id r <> i)) (default [] item)))).
Proof. reflexivity. Qed.

Lemma elem_of_List_filter {A} (f : A -> bool) (l : list A) (x : A) :
  x ∈ List.filter f l <-> x ∈ l /\ f x = true.
Proof. rewrite !list_elem_of_In. apply filter_In. Qed.

Lemma List_filter_sublist {A} (f : A -> bool) (l : list A) :
  sublist (List.filter f l) l.
Proof.
  induction l as [|x l IH]; simpl; [constructor|].
  destruct (f x); [apply sublist_skip|apply sublist_cons]; exact IH.
Qed.

Lemma List_filter_filter {A} (f : A -> bool) (l : list A) :
  List.filter f (List.filter f l) = List.filter f l.
Proof.
  apply filter_all. intros x Hx. apply elem_of_List_filter in Hx as [_ Hx]. exact Hx.
Qed.

(** X4. Deleting on the fallback store removes every record that carries
    the [id] and nothing else: the records of other [id]s stay, in their
    order, and deleting the same [id] once more changes nothing. *)
Theorem fallback_delete_removes (i : string) (item : option (list Note))
    (deleted again : option string) :
  let w := Db.mkWindow None item in
  let after := Db.parseItem (snd (Db.deleteNote i deleted w)) in
  (forall r, r ∈ after <-> r ∈ Db.parseItem w /\ id r <> i) /\
  sublist after (Db.parseItem w) /\
  Db.deleteNote i again (snd (Db.deleteNote i deleted w)) = Db.deleteNote i deleted w.
Proof.
  intros w after. unfold after, w. rewrite deleteNote_fallback.
  unfold Db.parseItem. simpl. split; [|split].
  - intros r. rewrite elem_of_List_filter, bool_decide_eq_true. reflexivity.
  - apply List_filter_sublist.
  - rewrite deleteNote_fallback. simpl. rewrite List_filter_filter. reflexivity.
Qed.

Lemma list_find_insert_found (n : Note) (l : list Note) (i : nat) (x : Note) :
  list_find (fun r => id r = id n) l = Some (i, x) ->
  list_find (fun r => id r = id n) (<[i := n]> l) = Some (i, n).
Proof.
  intros Hf. apply list_find_Some in Hf as (Hl & Hx & Hfirst).
  apply list_find_Some. split; [|split].
  - apply list_lookup_insert_eq. eapply lookup_lt_Some. exact Hl.
  - reflexivity.
  - intros j y Hj Hlt. rewrite list_lookup_insert_ne in Hj by lia.
    eapply Hfirst; eassumption.
Qed.

Lemma list_find_app_missing (n : Note) (l : list Note) :
  list_find (fun r => id r = id n) l = None ->
  list_find (fun r => id r = id n) (l ++ [n]) = Some (length l, n).
Proof.
  intros Hf. apply list_find_None in Hf. rewrite Forall_forall in Hf.
  apply list_find_Some. split; [|split].
  - rewrite lookup_app_r by lia. rewrite Nat.sub_diag. reflexivity.
  - reflexivity.
  - intros j y Hj Hlt. rewrite lookup_app_l in Hj by exact Hlt.
    apply Hf. eapply list_elem_of_lookup_2. exact Hj.
Qed.

(** X5. Saving on the fallback store is idempotent: saving the same note
    twice leaves the store as saving it once does. *)
Theorem fallback_save_idempotent (n : Note) (item : option (list Note))
    (saved again : option string) :
  let w := Db.mkWindow None item in
  Db.saveNote n again (snd (Db.saveNote n saved w)) = Db.saveNote n saved w.
Proof.
  intros w. unfold w. rewrite saveNote_fallback. simpl. rewrite saveNote_fallback.
  simpl. do 3 f_equal.
  destruct (list_find (fun r => id r = id n) (default [] item)) as [[i x]|] eqn:Hf.
  - rewrite (list_find_insert_found n _ i x Hf). apply list_insert_insert_eq.
  - rewrite (list_find_app_missing n _ Hf).
    rewrite insert_app_r_alt by lia. rewrite Nat.sub_diag. reflexivity.
Qed.

Lemma NoDup_ids_filter (f : Note -> bool) (l : list Note) :
  NoDup (id <$> l) -> NoDup (id <$> List.filter f l).
Proof.
  intros Hl. eapply sublist_NoDup; [exact Hl|].
  apply fmap_sublist, List_filter_sublist.
Qed.

(** X6. The fallback store keeps the [id]s of its records pairwise
    distinct: when they are before a save or a delete, they are after it. *)
Theorem fallback_ids_stay_distinct (n : Note) (i : string) (item : option (list Note))
    (saved deleted : option string) :
  let w := Db.mkWindow None item in
  NoDup (id <$> Db.parseItem w) ->
  NoDup (id <$> Db.parseItem (snd (Db.saveNote n saved w))) /\
  NoDup (id <$> Db.parseItem (snd (Db.deleteNote i deleted w))).
Proof.
  intros w Hnodup. split.
  - exact (fallback_save_keeps_ids_distinct n item saved Hnodup).
  - unfold w in *. rewrite deleteNote_fallback. unfold Db.parseItem in *. simpl in *.
    apply NoDup_ids_filter. exact Hnodup.
Qed.

Lemma fallback_ids_stay_distinct_witness :
  let item := Some [untitled1; untitled2] in
  NoDup (id <$> Db.parseItem (Db.mkWindow None item)) /\
  NoDup (id <$> Db.parseItem
           (snd (Db.saveNote (mkNote "2" "Plans" "x" "T3") None
                   (Db.mkWindow None item)))).
Proof.
  intros item.
  assert (NoDup (id <$> Db.parseItem (Db.mkWindow None item))) as Hnodup.
  { cbn. apply NoDup_cons. split; [|apply NoDup_singleton].
    intros Hin. apply list_elem_of_singleton in Hin. discriminate. }
  split; [exact Hnodup|].
  exact (proj1 (fallback_ids_stay_distinct (mkNote "2" "Plans" "x" "T3") "1" item
                  None None Hnodup)).
Defined.

Lemma List_filter_insert_dropped {A} (f : A -> bool) (l : list A) (i : nat) (x y : A) :
  l !! i = Some x -> f x = false -> f y = false ->
  List.filter f (<[i := y]> l) = List.filter f l.
Proof.
  revert i. induction l as [|z l IH]; intros [|i] Hl Hx Hy; simpl in *;
    try discriminate.
  - injection Hl as ->. rewrite Hx, Hy. reflexivity.
  - rewrite (IH i Hl Hx Hy). reflexivity.
Qed.

(** X7. On the fallback store a delete undoes a save: deleting the [id] of
    a note right after saving it leaves what deleting alone leaves, and when
    the [id] was not stored before, exactly the records of before. *)
Theorem fallback_save_then_delete (n : Note) (item : option (list Note))
    (saved deleted : option string) :
  let w := Db.mkWindow None item in
  Db.deleteNote (id n) deleted (snd (Db.saveNote n saved w))
    = Db.deleteNote (id n) deleted w /\
  ((forall r, r ∈ Db.parseItem w -> id r <> id n) ->
   Db.parseItem (snd (Db.deleteNote (id n) deleted (snd (Db.saveNote n saved w))))
     = Db.parseItem w).
Proof.
  intros w.
  assert (Db.deleteNote (id n) deleted (snd (Db.saveNote n saved w))
          = Db.deleteNote (id n) deleted w) as Hsame.
  { unfold w. rewrite saveNote_fallback. simpl. rewrite !deleteNote_fallback.
    simpl. do 3 f_equal.
    destruct (list_find (fun r => id r = id n) (default [] item)) as [[i x]|] eqn:Hf.
    - apply list_find_Some in Hf as (Hl & Hx & _).
      apply (List_filter_insert_dropped _ _ i x n Hl).
      + apply bool_decide_eq_false. intros Hne. exact (Hne Hx).
      + apply bool_decide_eq_false. intros Hne. exact (Hne eq_refl).
    - rewrite List.filter_app. simpl.
      rewrite bool_decide_eq_false_2 by (intros Hne; exact (Hne eq_refl)).
      apply app_nil_r. }
  split; [exact Hsame|].
  intros Habsent. rewrite Hsame. unfold w in *. rewrite deleteNote_fallback.
  unfold Db.parseItem in *. simpl in *.
  apply filter_all. intros r Hr. apply bool_decide_eq_true. exact (Habsent r Hr).
Qed.

Lemma fallback_save_then_delete_witness :
  let item := Some [untitled1] in
  (forall r, r ∈ Db.parseItem (Db.mkWindow None item) -> id r <> id untitled2) /\
  Db.parseItem (snd (Db.deleteNote (id untitled2) None
                  (snd (Db.saveNote untitled2 None (Db.mkWindow None item)))))
    = [untitled1].
Proof.
  intros item.
  assert (forall r, r ∈ Db.parseItem (Db.mkWindow None item) -> id r <> id untitled2)
    as Habsent.
  { intros r Hr. apply list_elem_of_singleton in Hr. subst r. discriminate. }
  split; [exact Habsent|].
  exact (proj2 (fallback_save_then_delete untitled2 item None None) Habsent).
Defined.

(** ** The two stores side by side *)

Lemma as_objectStore_lookup (l : list Note) (k : string) (r : Note) :
  NoDup (id <$> l) ->
  as_objectStore l !! k = Some r <-> r ∈ l /\ id r = k.
Proof.
  intros Hl. unfold as_objectStore.
  rewrite <- elem_of_list_to_map
    by (rewrite <- list_fmap_compose; exact Hl).
  rewrite list_elem_of_fmap. split.
  - intros (n & [= -> ->] & Hn). split; [exact Hn|reflexivity].
  - intros [Hr <-]. exists r. split; [reflexivity|exact Hr].
Qed.

Lemma as_objectStore_keyed (l : list Note) :
  NoDup (id <$> l) -> keyed (as_objectStore l).
Proof.
  intros Hl k n Hk. apply (as_objectStore_lookup l k n Hl) in Hk as [_ Hk]. exact Hk.
Qed.

(** The records of the array after a save: the note saved, and the records
    of before that carry another [id]. *)
Lemma elem_of_saved (n r : Note) (saved : option string) (l : list Note) :
  NoDup (id <$> l) ->
  r ∈ Db.parseItem (snd (Db.saveNote n saved (Db.mkWindow None (Some l))))
  <-> r = n \/ (r ∈ l /\ id r <> id n).
Proof.
  intros Hl. rewrite saveNote_fallback. unfold Db.parseItem. simpl.
  destruct (list_find (fun x => id x = id n) l) as [[i x]|] eqn:Hf.
  - apply list_find_Some in Hf as (Hi & Hx & _).
    assert (i < length l)%nat as Hlt by (eapply lookup_lt_Some; exact Hi).
    rewrite list_elem_of_lookup. split.
    + intros [j Hj]. destruct (decide (j = i)) as [->|Hne].
      * rewrite list_lookup_insert_eq in Hj by exact Hlt. left. congruence.
      * rewrite list_lookup_insert_ne in Hj by congruence. right.
        split; [eapply list_elem_of_lookup_2; exact Hj|].
        intros Hid. apply Hne.
        apply (NoDup_lookup (id <$> l) j i (id n)); [exact Hl| |].
        -- rewrite list_lookup_fmap, Hj. simpl. congruence.
        -- rewrite list_lookup_fmap, Hi. simpl. congruence.
    + intros [->|[Hr Hid]].
      * exists i. apply list_lookup_insert_eq. exact Hlt.
      * apply list_elem_of_lookup in Hr as [j Hj]. exists j.
        rewrite list_lookup_insert_ne; [exact Hj|].
        intros <-. congruence.
  - apply list_find_None in Hf. rewrite Forall_forall in Hf.
    rewrite elem_of_app, list_elem_of_singleton. split.
    + intros [Hr| ->]; [right; split; [exact Hr|exact (Hf r Hr)]|left; reflexivity].
    + intros [->|[Hr _]]; [right; reflexivity|left; exact Hr].
Qed.

Lemma saveNote_indexedDB (n : Note) (m : gmap string Note) (item : option (list Note)) :
  Db.saveNote n None (withIndexedDB m item)
    = (Resolved tt, withIndexedDB (<[id n := n]> m) item).
Proof. reflexivity. Qed.

Lemma deleteNote_indexedDB (i : string) (m : gmap string Note) (item : option (list Note)) :
  Db.deleteNote i None (withIndexedDB m item)
    = (Resolved tt, withIndexedDB (delete i m) item).
Proof. reflexivity. Qed.

(** X8. The two stores do the same.  Start the fallback store with an
    array of notes of pairwise distinct [id]s and IndexedDB with the same
    records under their [id]s: both list the same notes (up to order), and a
    save or a delete on each (the requests against the database succeeding)
    leaves them holding the same records again. *)
Theorem stores_agree (n : Note) (i : string) (l : list Note)
    (item : option (list Note)) (requestError : option string) :
  NoDup (id <$> l) ->
  let fallback := Db.mkWindow None (Some l) in
  let database := withIndexedDB (as_objectStore l) item in
  (exists listed, Db.getNotes None database = Resolved listed /\ listed ≡ₚ l) /\
  Db.getNotes requestError fallback = Resolved l /\
  snd (Db.saveNote n None database) =
    withIndexedDB
      (as_objectStore (Db.parseItem (snd (Db.saveNote n requestError fallback)))) item /\
  snd (Db.deleteNote i None database) =
    withIndexedDB
      (as_objectStore (Db.parseItem (snd (Db.deleteNote i requestError fallback)))) item.
Proof.
  intros Hl fallback database. subst fallback database.
  pose proof (as_objectStore_keyed l Hl) as Hkeyed.
  split; [|split; [reflexivity|split]].
  - eexists. split; [reflexivity|].
    apply NoDup_Permutation.
    + eapply NoDup_fmap_1. apply getAll_ids_distinct. exact Hkeyed.
    + eapply NoDup_fmap_1. exact Hl.
    + intros r. rewrite elem_of_getAll. split.
      * intros [k Hk]. apply (as_objectStore_lookup l k r Hl) in Hk as [Hr _]. exact Hr.
      * intros Hr. exists (id r). apply (as_objectStore_lookup l (id r) r Hl). auto.
  - rewrite saveNote_indexedDB. cbn [snd]. f_equal. symmetry. apply map_eq. intros k. apply option_eq. intros r.
    pose proof (fallback_save_keeps_ids_distinct n (Some l) requestError Hl) as Hl'.
    rewrite (as_objectStore_lookup _ k r Hl'), (elem_of_saved n r requestError l Hl).
    rewrite lookup_insert_Some, (as_objectStore_lookup l k r Hl).
    split.
    + intros [[-> | [Hr Hid]] <-]; [left; auto|right; auto].
    + intros [[<- <-]|[Hne [Hr <-]]]; [auto|]. split; [right; auto|reflexivity].
  - rewrite deleteNote_indexedDB, deleteNote_fallback. cbn [snd].
    unfold Db.parseItem. simpl.
    f_equal. symmetry. apply map_eq. intros k. apply option_eq. intros r.
    rewrite (as_objectStore_lookup _ k r (NoDup_ids_filter _ l Hl)).
    rewrite elem_of_List_filter, bool_decide_eq_true.
    rewrite lookup_delete_Some, (as_objectStore_lookup l k r Hl).
    split.
    + intros [[Hr Hid] <-]. split; [congruence|auto].
    + intros [Hne [Hr <-]]. split; [split; [exact Hr|congruence]|reflexivity].
Qed.

Lemma stores_agree_witness :
  NoDup (id <$> [untitled1; untitled2]) /\
  snd (Db.deleteNote "1" None
         (withIndexedDB (as_objectStore [untitled1; untitled2]) None)) =
    withIndexedDB (as_objectStore [untitled2]) None.
Proof.
  assert (NoDup (id <$> [untitled1; untitled2])) as Hnodup.
  { cbn. apply NoDup_cons. split; [|apply NoDup_singleton].
    intros Hin. apply list_elem_of_singleton in Hin. discriminate. }
  split; [exact Hnodup|].
  exact (proj2 (proj2 (proj2 (stores_agree untitled1 "1" _ None None Hnodup)))).
Defined.

(** ** Opening, rendering and creating *)

Section Platform.
Context {platform : ToLowerCase}.

Lemma displayed_renderNoteList_all (st : App.State) :
  displayed (App.renderNoteList "" st) = App.notes st.
Proof.
  unfold displayed, App.renderNoteList. cbn [truthy String.eqb negb].
  cbn [App.noteList_children App.set_noteList]. apply listener_createLi.
Qed.

Lemma createLi_active (current : option string) (n : Note) :
  App.className (App.createLi current n) = "active" <-> current = Some (id n).
Proof.
  unfold App.createLi. cbn [App.className]. case_bool_decide as Hc.
  - split; [intros _; exact Hc|reflexivity].
  - split; [discriminate|intros Hc'; contradiction].
Qed.

Lemma createLi_text (current : option string) (n : Note) :
  App.textContent (App.createLi current n) <> "" /\
  App.textContent (App.createLi current n) =
    (if decide (title n = "") then "Untitled" else title n).
Proof.
  unfold App.createLi, truthy. cbn [App.textContent].
  destruct (String.eqb_spec (title n) "") as [Heq|Hne]; cbn [negb].
  - rewrite decide_True by exact Heq. split; [discriminate|reflexivity].
  - rewrite decide_False by exact Hne. split; [exact Hne|reflexivity].
Qed.

(** X9. The entries that [renderNoteList] puts in the list, whatever the
    filter: each stands for a note of the notes array, in the order of the
    array; its label is the title of the note, or ["Untitled"] when the
    title is empty, and so never empty; and it is marked active exactly when
    its note carries the [id] of the open note. *)
Theorem noteList_entries (filter : string) (st : App.State) :
  let st' := App.renderNoteList filter st in
  sublist (displayed st') (App.notes st) /\
  App.noteList_children st' = App.createLi (App.currentNoteId st) <$> displayed st' /\
  forall li, li ∈ App.noteList_children st' ->
    App.listener li ∈ App.notes st /\
    App.textContent li <> "" /\
    App.textContent li =
      (if decide (title (App.listener li) = "") then "Untitled"
       else title (App.listener li)) /\
    (App.className li = "active" <->
     App.currentNoteId st = Some (id (App.listener li))).
Proof.
  intros st'. unfold st', displayed, App.renderNoteList.
  cbn [App.noteList_children App.set_noteList]. rewrite listener_createLi.
  assert (sublist (if truthy filter then List.filter (App.shown filter) (App.notes st)
                   else App.notes st) (App.notes st)) as Hsub.
  { destruct (truthy filter); [apply List_filter_sublist|reflexivity]. }
  split; [exact Hsub|]. split; [reflexivity|].
  intros li Hli. apply list_elem_of_fmap in Hli as (n & -> & Hn).
  split; [eapply elem_of_sublist; eassumption|].
  split; [apply createLi_text|]. split; [apply createLi_text|].
  apply createLi_active.
Qed.

Lemma openNote_found (i : string) (st : App.State) (note : Note) :
  find (fun n => id n = i) (App.notes st) = Some note ->
  App.openNote i st =
    App.renderNoteList ""
      (App.renderPreview
         (App.mkState (Some i) (App.notes st) (title note) (content note)
            (App.noteList_children st) (App.preview_innerHTML st) (App.window st))).
Proof. intros Hfind. unfold App.openNote. rewrite Hfind. reflexivity. Qed.

(** X10. Opening an [id] that a note of the list carries: that [id] becomes
    the selection, the title field and the editor take the title and content
    of the first note with the [id], the preview is rendered from that
    content, the notes and the store stay as they are, and the list is
    rendered anew without filter, so that every note is on display, with
    exactly the entries of that [id] marked active. *)
Theorem openNote_known_id (i : string) (st : App.State) (note : Note) :
  find (fun n => id n = i) (App.notes st) = Some note ->
  let st' := App.openNote i st in
  App.currentNoteId st' = Some i /\
  App.noteTitle_value st' = title note /\
  App.editor_value st' = content note /\
  App.preview_innerHTML st' = App.markdown (content note) /\
  App.notes st' = App.notes st /\
  App.window st' = App.window st /\
  displayed st' = App.notes st /\
  forall li, li ∈ App.noteList_children st' ->
    (App.className li = "active" <-> id (App.listener li) = i).
Proof.
  intros Hfind st'. unfold st'. rewrite (openNote_found i st note Hfind).
  repeat (split; [reflexivity|]).
  split; [rewrite displayed_renderNoteList_all; reflexivity|].
  intros li Hli.
  cbn [App.renderNoteList App.set_noteList App.noteList_children truthy
       String.eqb negb] in Hli.
  apply list_elem_of_fmap in Hli as (n & -> & _).
  rewrite createLi_active. cbn [App.renderPreview App.set_preview App.currentNoteId
                                App.listener App.createLi].
  split; [intros [= ->]; reflexivity|intros ->; reflexivity].
Qed.

End Platform.

Lemma openNote_known_id_witness :
  find (fun n => id n = "1") (App.notes twoTitled) = Some ideas /\
  App.noteTitle_value (App.openNote "1" twoTitled) = "Ideas".
Proof.
  split; [reflexivity|].
  exact (proj1 (proj2 (openNote_known_id "1" twoTitled ideas eq_refl))).
Defined.

Section Platform.
Context {platform : ToLowerCase}.

(** Saving and listing on either store, when the requests succeed. *)
Lemma saveNote_listed (n : Note) (saved : option string) (w : Db.Window) :
  failing saved w = None ->
  exists l, Db.getNotes None (snd (Db.saveNote n saved w)) = Resolved l /\ n ∈ l.
Proof.
  destruct w as [[[m]|] item]; unfold failing; cbn [Db.indexedDB].
  - intros ->. unfold Db.saveNote, Db.getNotes. simpl. eexists. split; [reflexivity|].
    apply elem_of_getAll. exists (id n). apply lookup_insert_eq.
  - intros _. rewrite saveNote_fallback. unfold Db.getNotes, Db.parseItem. simpl.
    eexists. split; [reflexivity|].
    destruct (list_find _ _) as [[i r]|] eqn:Hf.
    + apply list_find_Some in Hf as (Hl & _ & _).
      apply list_elem_of_lookup. exists i.
      apply list_lookup_insert_eq. eapply lookup_lt_Some. exact Hl.
    + apply elem_of_app. right. apply list_elem_of_singleton. reflexivity.
Qed.

Lemma set_window_same (st : App.State) : App.set_window st (App.window st) = st.
Proof. destruct st. reflexivity. Qed.

Lemma markdown_empty : App.markdown "" = "".
Proof. vm_compute. reflexivity. Qed.

(** [createNewNote] when the store accepts the save. *)
Lemma createNewNote_works (now : Z) (iso : string) (saved : option string)
    (st : App.State) :
  failing saved (App.window st) = None ->
  exists w,
    Db.saveNote (fresh_note now iso) saved (App.window st) = (Resolved tt, w) /\
    App.createNewNote now iso saved st =
      (Resolved tt,
       App.openNote (toString now)
         (App.set_notes (App.set_window st w) (fresh_note now iso :: App.notes st))).
Proof.
  intros Hfail. unfold App.createNewNote, App.saveNote. fold (fresh_note now iso).
  pose proof (saveNote_failing (fresh_note now iso) saved (App.window st)) as Hsave.
  rewrite Hfail in Hsave. destruct Hsave as [Hres _].
  destruct (Db.saveNote (fresh_note now iso) saved (App.window st)) as [p w].
  cbn [fst] in Hres. subst p. exists w. split; reflexivity.
Qed.

(** X11. What [createNewNote] leaves.  When the store rejects the save, the
    promise rejects with that error and the page is as before.  Otherwise
    the fresh note stands first in the notes array and is the open note: the
    title field reads ["Untitled"], the editor and the preview are empty, the
    list displays every note, and the store lists the fresh note (in a
    listing whose requests succeed). *)
Theorem createNewNote_opens_fresh_note (now : Z) (iso : string)
    (saved : option string) (st : App.State) :
  let result := App.createNewNote now iso saved st in
  match failing saved (App.window st) with
  | Some e => result = (Rejected e, st)
  | None =>
      fst result = Resolved tt /\
      App.notes (snd result) = fresh_note now iso :: App.notes st /\
      App.currentNoteId (snd result) = Some (toString now) /\
      App.noteTitle_value (snd result) = "Untitled" /\
      App.editor_value (snd result) = "" /\
      App.preview_innerHTML (snd result) = "" /\
      displayed (snd result) = fresh_note now iso :: App.notes st /\
      exists l, Db.getNotes None (App.window (snd result)) = Resolved l /\
        fresh_note now iso ∈ l
  end.
Proof.
  intros result. unfold result.
  pose proof (saveNote_failing (fresh_note now iso) saved (App.window st)) as Hsave.
  pose proof (saveNote_listed (fresh_note now iso) saved (App.window st)) as Hlisted.
  pose proof (createNewNote_works now iso saved st) as Hworks.
  destruct (failing saved (App.window st)) as [e|].
  - unfold App.createNewNote, App.saveNote. fold (fresh_note now iso).
    rewrite Hsave. cbn [await]. rewrite set_window_same. reflexivity.
  - destruct (Hworks eq_refl) as (w & Hw & ->). specialize (Hlisted eq_refl).
    rewrite Hw in Hlisted. cbn [fst snd] in *.
    rewrite (openNote_found _ _ (fresh_note now iso)) by (apply find_head; reflexivity).
    split; [reflexivity|]. split; [reflexivity|]. split; [reflexivity|].
    split; [reflexivity|]. split; [reflexivity|].
    split; [exact markdown_empty|].
    split; [rewrite displayed_renderNoteList_all; reflexivity|exact Hlisted].
Qed.

End Platform.

(** ** Saving and exporting the open note *)

Section Platform.
Context {platform : ToLowerCase}.

Lemma truthy_nonempty (s : string) : truthy s = true <-> s <> "".
Proof.
  unfold truthy. destruct (String.eqb_spec s "") as [->|Hne]; cbn [negb].
  - split; [discriminate|intros Hne; contradiction].
  - split; [intros _; exact Hne|reflexivity].
Qed.

(** X12. [saveCurrentNote] on an open note.  When the store rejects, the
    promise rejects and the page is as before.  Otherwise the note built from
    the [id] of the selection, the title field and the editor is in the
    store (a listing whose requests succeed returns it), and it stands in the notes array at every position whose note
    carries that [id]; the other positions, the [id]s and their order, the
    selection and the two fields are as before, and the list displays every
    note. *)
Theorem saveCurrentNote_saves (iso current : string) (saved : option string)
    (st : App.State) :
  App.currentNoteId st = Some current ->
  current <> "" ->
  let note := mkNote current (App.noteTitle_value st) (App.editor_value st) iso in
  let result := AppRest.saveCurrentNote iso saved st in
  match failing saved (App.window st) with
  | Some e => result = (Rejected e, st)
  | None =>
      fst result = Resolved tt /\
      (exists l, Db.getNotes None (App.window (snd result)) = Resolved l /\ note ∈ l) /\
      id <$> App.notes (snd result) = id <$> App.notes st /\
      (forall k n, App.notes st !! k = Some n ->
         App.notes (snd result) !! k = Some (if decide (id n = current) then note else n)) /\
      App.currentNoteId (snd result) = Some current /\
      App.noteTitle_value (snd result) = App.noteTitle_value st /\
      App.editor_value (snd result) = App.editor_value st /\
      displayed (snd result) = App.notes (snd result)
  end.
Proof.
  intros Hcurrent Hne note result. unfold result, AppRest.saveCurrentNote.
  rewrite Hcurrent. rewrite (proj2 (truthy_nonempty current) Hne).
  fold note. unfold App.saveNote.
  pose proof (saveNote_failing note saved (App.window st)) as Hsave.
  pose proof (saveNote_listed note saved (App.window st)) as Hlisted.
  destruct (failing saved (App.window st)) as [e|].
  - rewrite Hsave. cbn [await]. rewrite set_window_same. reflexivity.
  - destruct Hsave as [Hres _]. specialize (Hlisted eq_refl).
    destruct (Db.saveNote note saved (App.window st)) as [p w].
    cbn [fst snd] in Hres, Hlisted. subst p. cbn [await snd fst].
    split; [reflexivity|]. split; [exact Hlisted|].
    split; [|split; [|split; [exact Hcurrent|]]].
    + cbn. rewrite <- list_fmap_compose. apply list_fmap_ext.
      intros k n _. simpl. case_bool_decide as Hid; [symmetry; exact Hid|reflexivity].
    + intros k n Hk. cbn. rewrite list_lookup_fmap, Hk. simpl. f_equal.
      case_bool_decide as Hid.
      * rewrite decide_True by exact Hid. reflexivity.
      * rewrite decide_False by exact Hid. reflexivity.
    + split; [reflexivity|]. split; [reflexivity|].
      rewrite displayed_renderNoteList_all. reflexivity.
Qed.

End Platform.

Lemma saveCurrentNote_saves_witness :
  App.currentNoteId twoTitled = Some "2" /\ "2" <> "" /\
  App.notes (snd (AppRest.saveCurrentNote "T9" None twoTitled)) !! 0%nat =
    Some (mkNote "2" "Shopping" "milk" "T9").
Proof.
  split; [reflexivity|]. split; [discriminate|].
  pose proof (saveCurrentNote_saves "T9" "2" None twoTitled eq_refl
                ltac:(discriminate)) as Hsaved.
  cbn zeta in Hsaved.
  change (failing None (App.window twoTitled)) with (@None string) in Hsaved.
  destruct Hsaved as (_ & _ & _ & Hnotes & _).
  exact (Hnotes 0%nat shopping eq_refl).
Defined.

Section Platform.
Context {platform : ToLowerCase}.

(** X13. What a click on the export button gives.  With nothing open (no
    selection, or the empty [id]) there is no download, and saving does
    nothing either.  With an open note that is in the list, the download is
    named after the title of the first note with the open [id], with [.md]
    appended, and holds its content as the notes array has it.  The listener
    throws exactly when the open [id] is the [id] of no note in the list. *)
Theorem export_outcome (iso : string) (saved : option string) (st : App.State) :
  match App.currentNoteId st with
  | None => AppRest.exportBtn_click st = AppRest.NoDownload /\
            AppRest.saveCurrentNote iso saved st = (Resolved tt, st)
  | Some current =>
      if decide (current = "") then
        AppRest.exportBtn_click st = AppRest.NoDownload /\
        AppRest.saveCurrentNote iso saved st = (Resolved tt, st)
      else
        match find (fun n => id n = current) (App.notes st) with
        | Some note =>
            note ∈ App.notes st /\ id note = current /\
            AppRest.exportBtn_click st =
              AppRest.Download (title note +:+ ".md") (content note)
        | None =>
            (forall n, n ∈ App.notes st -> id n <> current) /\
            AppRest.exportBtn_click st = AppRest.TypeError
        end
  end.
Proof.
  unfold AppRest.exportBtn_click, AppRest.saveCurrentNote.
  destruct (App.currentNoteId st) as [current|]; [|split; reflexivity].
  destruct (decide (current = "")) as [->|Hne]; [split; reflexivity|].
  rewrite (proj2 (truthy_nonempty current) Hne).
  destruct (find (fun n => id n = current) (App.notes st)) as [note|] eqn:Hfind.
  - unfold find in Hfind. apply fmap_Some in Hfind as ([k x] & Hf & ->).
    apply list_find_Some in Hf as (Hk & Hid & _). simpl.
    split; [eapply list_elem_of_lookup_2; exact Hk|]. split; [exact Hid|reflexivity].
  - split; [|reflexivity].
    exact (proj1 (find_None (fun n => id n = current) (App.notes st)) Hfind).
Qed.

Lemma map_replace_find (current : string) (note : Note) (l : list Note) :
  id note = current ->
  (exists n, n ∈ l /\ id n = current) ->
  find (fun n => id n = current)
    (map (fun n => if bool_decide (id n = current) then note else n) l) = Some note.
Proof.
  intros Hnote (n & Hn & Hid). induction l as [|x l IH].
  - apply elem_of_nil in Hn. contradiction.
  - cbn [map]. unfold find. cbn [list_find]. case_bool_decide as Hx.
    + rewrite decide_True by exact Hnote. reflexivity.
    + rewrite decide_False by exact Hx.
      apply elem_of_cons in Hn as [->|Hn]; [contradiction|].
      specialize (IH Hn). unfold find in IH.
      destruct (list_find _ (map _ l)) as [[k y]|]; [|discriminate].
      simpl in *. exact IH.
Qed.

(** X14. Exporting after a save.  When the open note is in the list and the
    store accepts the save, a click on the export button right after
    [saveCurrentNote] downloads the text of the editor under the name that
    the title field gives, with [.md] appended. *)
Theorem export_after_save (iso current : string) (saved : option string)
    (st : App.State) :
  App.currentNoteId st = Some current ->
  current <> "" ->
  (exists n, n ∈ App.notes st /\ id n = current) ->
  failing saved (App.window st) = None ->
  AppRest.exportBtn_click (snd (AppRest.saveCurrentNote iso saved st)) =
    AppRest.Download (App.noteTitle_value st +:+ ".md") (App.editor_value st).
Proof.
  intros Hcurrent Hne Hlisted Hfail.
  unfold AppRest.saveCurrentNote. rewrite Hcurrent, (proj2 (truthy_nonempty current) Hne).
  unfold App.saveNote.
  pose proof (saveNote_failing
                (mkNote current (App.noteTitle_value st) (App.editor_value st) iso)
                saved (App.window st)) as Hsave.
  rewrite Hfail in Hsave. destruct Hsave as [Hres _].
  destruct (Db.saveNote _ saved (App.window st)) as [p w].
  cbn [fst] in Hres. subst p. cbn [await snd].
  unfold AppRest.exportBtn_click.
  cbn [App.renderNoteList App.set_noteList App.set_notes App.set_window
       App.currentNoteId App.notes].
  rewrite Hcurrent, (proj2 (truthy_nonempty current) Hne).
  rewrite map_replace_find; [reflexivity|reflexivity|exact Hlisted].
Qed.

End Platform.

Lemma export_after_save_witness :
  App.currentNoteId twoTitled = Some "2" /\
  AppRest.exportBtn_click (snd (AppRest.saveCurrentNote "T9" None twoTitled)) =
    AppRest.Download "Shopping.md" "milk".
Proof.
  split; [reflexivity|].
  apply (export_after_save "T9" "2" None twoTitled eq_refl).
  - discriminate.
  - exists shopping. split; [left|reflexivity].
  - reflexivity.
Defined.

(** ** Starting the page *)

Lemma getNotes_failing (requestError : option string) (w : Db.Window) :
  match failing requestError w with
  | Some e => Db.getNotes requestError w = Rejected e
  | None => exists l, Db.getNotes requestError w = Resolved l
  end.
Proof.
  unfold failing, Db.getNotes. destruct (Db.indexedDB w) as [db|].
  - destruct requestError; [reflexivity|eexists; reflexivity].
  - eexists. reflexivity.
Qed.

Section Platform.
Context {platform : ToLowerCase}.

(** [createNewNote] when the store rejects the save. *)
Lemma createNewNote_rejects (now : Z) (iso : string) (saved : option string)
    (st : App.State) (e : string) :
  failing saved (App.window st) = Some e ->
  App.createNewNote now iso saved st = (Rejected e, st).
Proof.
  intros Hfail. unfold App.createNewNote, App.saveNote. fold (fresh_note now iso).
  pose proof (saveNote_failing (fresh_note now iso) saved (App.window st)) as Hsave.
  rewrite Hfail in Hsave. rewrite Hsave. cbn [await].
  rewrite set_window_same. reflexivity.
Qed.

(** X15. [loadNotes] of [app.js] never rejects.  When listing fails, the
    page is as before.  When the store lists notes, they become the notes
    array and the first of them is opened.  When the store lists no note, a
    fresh note is created: if the store accepts its save, the note is stored
    and opened; if the save fails, no note is open afterwards: the notes
    array and the list are empty, and the selection, the fields, the preview
    and the store are as before. *)
Theorem loadNotes_outcome (now : Z) (iso : string) (listed saved : option string)
    (st : App.State) :
  let result := AppRest.loadNotes now iso listed saved st in
  fst result = Resolved tt /\
  match Db.getNotes listed (App.window st) with
  | Rejected _ => snd result = st
  | Resolved (first :: rest) =>
      App.notes (snd result) = first :: rest /\
      App.currentNoteId (snd result) = Some (id first) /\
      App.noteTitle_value (snd result) = title first /\
      App.editor_value (snd result) = content first /\
      displayed (snd result) = first :: rest /\
      App.window (snd result) = App.window st
  | Resolved [] =>
      match failing saved (App.window st) with
      | None =>
          App.notes (snd result) = [fresh_note now iso] /\
          App.currentNoteId (snd result) = Some (id (fresh_note now iso)) /\
          App.noteTitle_value (snd result) = "Untitled" /\
          App.editor_value (snd result) = "" /\
          exists l, Db.getNotes None (App.window (snd result)) = Resolved l /\
            fresh_note now iso ∈ l
      | Some _ =>
          snd result =
            App.mkState (App.currentNoteId st) [] (App.noteTitle_value st)
              (App.editor_value st) [] (App.preview_innerHTML st) (App.window st)
      end
  end.
Proof.
  intros result. unfold result, AppRest.loadNotes.
  destruct (Db.getNotes listed (App.window st)) as [[|first rest]|e] eqn:Hlist.
  - cbn [App.renderNoteList App.set_noteList App.set_notes App.notes].
    change (App.set_noteList (App.set_notes st [])
              (map (App.createLi (App.currentNoteId (App.set_notes st [])))
                 (if truthy "" then List.filter (App.shown "") [] else [])))
      with (App.renderNoteList "" (App.set_notes st [])).
    destruct (failing saved (App.window st)) as [e|] eqn:Hfail.
    + rewrite (createNewNote_rejects now iso saved
                 (App.renderNoteList "" (App.set_notes st [])) e Hfail).
      split; reflexivity.
    + destruct (createNewNote_works now iso saved
                  (App.renderNoteList "" (App.set_notes st [])) Hfail)
        as (w & Hw & ->).
      pose proof (saveNote_listed (fresh_note now iso) saved (App.window st) Hfail)
        as Hstored.
      change (App.window (App.renderNoteList "" (App.set_notes st [])))
        with (App.window st) in Hw.
      rewrite Hw in Hstored. cbn [fst snd] in *.
      rewrite (openNote_found _ _ (fresh_note now iso)) by (apply find_head; reflexivity).
      split; [reflexivity|]. repeat (split; [reflexivity|]). exact Hstored.
  - cbn [App.renderNoteList App.set_noteList App.set_notes App.notes].
    split; [reflexivity|]. cbn [snd].
    rewrite (openNote_found _ _ first) by (apply find_head; reflexivity).
    repeat (split; [reflexivity|]).
    split; [|reflexivity].
    rewrite displayed_renderNoteList_all. reflexivity.
  - split; reflexivity.
Qed.

(** X16. [loadNotes] of the second copy.  When listing fails, its promise
    rejects.  When the store lists notes, they become the notes array and the
    first of them is opened, as in [app.js].  When the store is empty, no
    note is created: the notes array and the list are empty, and the
    selection and the store are as before. *)
Theorem part000_loadNotes (listed : option string) (st : App.State) :
  let result := Part000Rest.loadNotes listed st in
  match Db.getNotes listed (App.window st) with
  | Rejected e => result = (Rejected e, st)
  | Resolved (first :: rest) =>
      fst result = Resolved tt /\
      App.notes (snd result) = first :: rest /\
      App.currentNoteId (snd result) = Some (id first) /\
      App.noteTitle_value (snd result) = title first /\
      App.editor_value (snd result) = content first /\
      displayed (snd result) = first :: rest
  | Resolved [] =>
      fst result = Resolved tt /\
      App.notes (snd result) = [] /\
      App.noteList_children (snd result) = [] /\
      App.currentNoteId (snd result) = App.currentNoteId st /\
      App.window (snd result) = App.window st
  end.
Proof.
  intros result. unfold result, Part000Rest.loadNotes.
  destruct (Db.getNotes listed (App.window st)) as [[|first rest]|e].
  - repeat split; reflexivity.
  - cbn [App.renderNoteList App.set_noteList App.set_notes App.notes].
    split; [reflexivity|]. cbn [snd].
    rewrite (openNote_found _ _ first) by (apply find_head; reflexivity).
    repeat (split; [reflexivity|]).
    rewrite displayed_renderNoteList_all. reflexivity.
  - reflexivity.
Qed.

(** What [loadNotes] of [app.js] leaves of the notes array and of the
    selection, by the answers of the store. *)
Lemma loadNotes_selects (now : Z) (iso : string) (listed saved : option string)
    (st : App.State) :
  exists st',
    AppRest.loadNotes now iso listed saved st = (Resolved tt, st') /\
    match Db.getNotes listed (App.window st) with
    | Rejected _ => st' = st
    | Resolved (first :: rest) =>
        App.notes st' = first :: rest /\ App.currentNoteId st' = Some (id first)
    | Resolved [] =>
        match failing saved (App.window st) with
        | None =>
            App.notes st' = [fresh_note now iso] /\
            App.currentNoteId st' = Some (id (fresh_note now iso))
        | Some _ =>
            App.notes st' = [] /\ App.currentNoteId st' = App.currentNoteId st
        end
    end.
Proof.
  unfold AppRest.loadNotes.
  destruct (Db.getNotes listed (App.window st)) as [[|first rest]|e].
  - cbn [App.renderNoteList App.set_noteList App.set_notes App.notes].
    change (App.set_noteList (App.set_notes st [])
              (map (App.createLi (App.currentNoteId (App.set_notes st [])))
                 (if truthy "" then List.filter (App.shown "") [] else [])))
      with (App.renderNoteList "" (App.set_notes st [])).
    destruct (failing saved (App.window st)) as [e|] eqn:Hfail.
    + rewrite (createNewNote_rejects now iso saved
                 (App.renderNoteList "" (App.set_notes st [])) e Hfail).
      eexists. split; [reflexivity|]. split; reflexivity.
    + destruct (createNewNote_works now iso saved
                  (App.renderNoteList "" (App.set_notes st [])) Hfail)
        as (w & _ & ->).
      eexists. split; [reflexivity|].
      rewrite (openNote_found _ _ (fresh_note now iso)) by (apply find_head; reflexivity).
      split; reflexivity.
  - cbn [App.renderNoteList App.set_noteList App.set_notes App.notes].
    eexists. split; [reflexivity|].
    rewrite (openNote_found _ _ first) by (apply find_head; reflexivity).
    split; reflexivity.
  - eexists. split; reflexivity.
Qed.

(** X17. Starting the page.  [app.js] shows its alert exactly when the
    database cannot be opened, and then leaves the page as it found it.
    Otherwise what is open afterwards goes by the answers of the store: when
    listing fails, the page is as it was found, with no note; when the store
    lists notes, they are the notes array and the first of them is open;
    when it lists none, the fresh note is the one note and is open if its
    save is accepted, and there is no note and nothing open if its save
    fails.  The second copy rejects when opening or listing fails, opens the
    first note listed, and on an empty listing ends with no note and nothing
    open. *)
Theorem initialize_outcome (now : Z) (iso : string)
    (opened listed saved : option string) (titleField editor : string)
    (children : list App.Li) (html : string) (w : Db.Window) :
  let st := startState titleField editor children html w in
  let app := AppRest.initialize now iso opened listed saved st in
  let part000 := Part000Rest.initialize opened listed st in
  match failing opened w with
  | Some e => app = (true, st) /\ part000 = (Rejected e, st)
  | None =>
      fst app = false /\
      match Db.getNotes listed w with
      | Rejected e => snd app = st /\ part000 = (Rejected e, st)
      | Resolved (first :: rest) =>
          App.notes (snd app) = first :: rest /\
          App.currentNoteId (snd app) = Some (id first) /\
          fst part000 = Resolved tt /\
          App.notes (snd part000) = first :: rest /\
          App.currentNoteId (snd part000) = Some (id first)
      | Resolved [] =>
          match failing saved w with
          | None =>
              App.notes (snd app) = [fresh_note now iso] /\
              App.currentNoteId (snd app) = Some (id (fresh_note now iso))
          | Some _ =>
              App.notes (snd app) = [] /\ App.currentNoteId (snd app) = None
          end /\
          fst part000 = Resolved tt /\
          App.notes (snd part000) = [] /\
          App.currentNoteId (snd part000) = None
      end
  end.
Proof.
  intros st app part000. subst app part000.
  unfold AppRest.initialize, Part000Rest.initialize.
  change (App.window st) with w.
  assert (initDB opened w =
          match failing opened w with Some e => Rejected e | None => Resolved tt end)
    as ->.
  { unfold initDB, failing. destruct (Db.indexedDB w); [|reflexivity].
    destruct opened; reflexivity. }
  destruct (failing opened w) as [e|]; [split; reflexivity|].
  destruct (loadNotes_selects now iso listed saved st) as (st' & -> & Hload).
  unfold Part000Rest.loadNotes. change (App.window st) with w in *.
  cbn [fst snd]. split; [reflexivity|].
  destruct (Db.getNotes listed w) as [[|first rest]|e].
  - split; [exact Hload|]. repeat split; reflexivity.
  - destruct Hload as [-> ->].
    cbn [App.renderNoteList App.set_noteList App.set_notes App.notes].
    rewrite (openNote_found _ _ first) by (apply find_head; reflexivity).
    repeat split; reflexivity.
  - split; [exact Hload|reflexivity].
Qed.

End Platform.

(** ** Toggling the preview *)

(** X19. The preview toggle flips the visibility of the preview and of the
    editor, so that a second click restores both and a page that shows
    exactly one of the two keeps showing exactly one; whenever a click
    reveals the preview, the preview holds the markup of the current text of
    the editor; and a click changes nothing else of the page. *)
Theorem togglePreview_flips (h : AppRest.Hidden) (st : App.State) :
  let once := AppRest.togglePreview_click h st in
  let twice := AppRest.togglePreview_click (fst once) (snd once) in
  fst twice = h /\
  xorb (AppRest.preview_hidden (fst once)) (AppRest.editor_hidden (fst once)) =
    xorb (AppRest.preview_hidden h) (AppRest.editor_hidden h) /\
  (if AppRest.preview_hidden (fst once) then snd once = st
   else App.preview_innerHTML (snd once) = App.markdown (App.editor_value st)) /\
  snd once = App.set_preview st (App.preview_innerHTML (snd once)) /\
  App.editor_value (snd twice) = App.editor_value st.
Proof.
  destruct h as [[] []], st; cbn; repeat split; reflexivity.
Qed.

(** ** Deleting the clicked note *)

Section Platform.
Context {platform : ToLowerCase}.

Lemma find_unique {B} `{EqDecision B} (f : Note -> B) (l : list Note) (n : Note) :
  NoDup (f <$> l) -> n ∈ l -> find (fun m => f m = f n) l = Some n.
Proof.
  intros Hnodup Hn. unfold find.
  destruct (list_find (fun m => f m = f n) l) as [[k x]|] eqn:Hf.
  - apply list_find_Some in Hf as (Hk & Hx & _). simpl. f_equal.
    apply list_elem_of_lookup in Hn as [j Hj].
    assert (k = j) as ->.
    { apply (NoDup_lookup (f <$> l) k j (f n)); [exact Hnodup| |].
      - rewrite list_lookup_fmap, Hk. simpl. congruence.
      - rewrite list_lookup_fmap, Hj. reflexivity. }
    congruence.
  - apply list_find_None in Hf. rewrite Forall_forall in Hf.
    exfalso. exact (Hf n Hn eq_refl).
Qed.

(** The delete listener of [app.js] on the open note, store included. *)
Lemma noteList_click_deletes_open (li : App.Li) (now : Z) (iso : string)
    (deleted saved : option string) (st : App.State) (found : Note) :
  find (fun n => title n = App.textContent li) (App.notes st) = Some found ->
  truthy (id found) = true ->
  App.currentNoteId st = Some (id found) ->
  failing deleted (App.window st) = None ->
  failing saved (App.window st) = None ->
  let remaining :=
    List.filter (fun n => bool_decide (id n <> id found)) (App.notes st) in
  let result :=
    App.noteList_click (App.mkEvent true (Some li)) now iso deleted saved st in
  fst result = Resolved tt /\
  match remaining with
  | first :: _ =>
      App.notes (snd result) = remaining /\
      App.currentNoteId (snd result) = Some (id first) /\
      App.window (snd result) = snd (Db.deleteNote (id found) deleted (App.window st))
  | [] =>
      App.notes (snd result) = [fresh_note now iso] /\
      App.currentNoteId (snd result) = Some (id (fresh_note now iso)) /\
      App.window (snd result) =
        snd (Db.saveNote (fresh_note now iso) saved
               (snd (Db.deleteNote (id found) deleted (App.window st))))
  end.
Proof.
  intros Hfound Hid Hcurrent Hfail Hfails remaining result.
  unfold result, App.noteList_click. cbn [App.shiftKey App.target].
  rewrite Hfound, Hid. unfold App.deleteNote.
  pose proof (deleteNote_failing (id found) deleted (App.window st)) as Hdel.
  rewrite Hfail in Hdel. destruct Hdel as [Hres Hfail'].
  destruct (Db.deleteNote (id found) deleted (App.window st)) as [p w].
  cbn [fst snd] in Hres, Hfail'. subst p. cbn [await snd].
  cbn [App.set_notes App.set_window App.currentNoteId App.notes
       App.noteTitle_value App.editor_value App.noteList_children
       App.preview_innerHTML App.window].
  rewrite Hcurrent, bool_decide_eq_true_2 by reflexivity.
  fold remaining. destruct remaining as [|first rest] eqn:Hremaining.
  - unfold App.createNewNote, App.saveNote. fold (fresh_note now iso).
    cbn [App.set_notes App.set_window App.currentNoteId App.notes
         App.noteTitle_value App.editor_value App.noteList_children
         App.preview_innerHTML App.window].
    pose proof (saveNote_failing (fresh_note now iso) saved w) as Hsave.
    rewrite Hfail', Hfails in Hsave. destruct Hsave as [Hres _].
    destruct (Db.saveNote (fresh_note now iso) saved w) as [p w'].
    cbn [fst] in Hres. subst p. cbn [await snd fst].
    rewrite (openNote_found _ _ (fresh_note now iso)) by (apply find_head; reflexivity).
    repeat split; reflexivity.
  - cbn [fst snd].
    rewrite (openNote_found _ _ first) by (apply find_head; reflexivity).
    repeat split; reflexivity.
Qed.

(** X20. Shift-click deletes the clicked note when titles tell the notes
    apart.  On a page whose notes have pairwise distinct [id]s and pairwise
    distinct, non-empty titles, and whose store answers (the requests of the
    delete and of the save succeed), a shift-click on
    the entry of a note removes that note and no other from the notes array,
    and deletes its [id] from the store.  The first of the remaining notes
    is opened; when none remains, a fresh note is created, stored and
    opened. *)
Theorem shift_click_deletes_clicked_note (k : nat) (now : Z) (iso : string)
    (deleted saved : option string) (st : App.State) (n : Note)
    (c : option string) :
  App.noteList_children st !! k = Some (App.createLi c n) ->
  n ∈ App.notes st ->
  NoDup (id <$> App.notes st) ->
  NoDup (title <$> App.notes st) ->
  (forall m, m ∈ App.notes st -> id m <> "" /\ title m <> "") ->
  failing deleted (App.window st) = None ->
  failing saved (App.window st) = None ->
  let result := App.click_entry true k now iso deleted saved st in
  let remaining :=
    List.filter (fun m => bool_decide (id m <> id n)) (App.notes st) in
  fst result = Resolved tt /\
  (forall m, m ∈ remaining <-> m ∈ App.notes st /\ m <> n) /\
  match remaining with
  | first :: _ =>
      App.notes (snd result) = remaining /\
      App.currentNoteId (snd result) = Some (id first) /\
      App.window (snd result) = snd (Db.deleteNote (id n) deleted (App.window st))
  | [] =>
      App.notes (snd result) = [fresh_note now iso] /\
      App.currentNoteId (snd result) = Some (id (fresh_note now iso)) /\
      App.window (snd result) =
        snd (Db.saveNote (fresh_note now iso) saved
               (snd (Db.deleteNote (id n) deleted (App.window st))))
  end.
Proof.
  intros Hk Hn Hids Htitles Hfilled Hfail Hfails result remaining. subst result.
  destruct (Hfilled n Hn) as [Hid Htitle].
  assert (forall m, m ∈ remaining <-> m ∈ App.notes st /\ m <> n) as Hremaining.
  { intros m. unfold remaining. rewrite elem_of_List_filter, bool_decide_eq_true.
    split; intros [Hm Hne]; (split; [exact Hm|]).
    - intros ->. exact (Hne eq_refl).
    - intros Hsame. apply Hne.
      pose proof (find_unique id _ n Hids Hn) as Hfn.
      pose proof (find_unique id _ m Hids Hm) as Hfm.
      rewrite Hsame in Hfm. congruence. }
  unfold App.click_entry. rewrite Hk. unfold App.li_click.
  cbn [App.listener App.createLi].
  assert (App.currentNoteId (App.openNote (id n) st) = Some (id n) /\
          App.notes (App.openNote (id n) st) = App.notes st /\
          App.window (App.openNote (id n) st) = App.window st)
    as (Hcurrent & Hnotes & Hwindow).
  { rewrite (openNote_found (id n) st n (find_unique id _ n Hids Hn)).
    repeat split; reflexivity. }
  pose proof (noteList_click_deletes_open (App.createLi c n) now iso deleted saved
                (App.openNote (id n) st) n) as Hclick.
  cbn zeta in Hclick. rewrite Hnotes, Hwindow in Hclick.
  fold remaining in Hclick.
  destruct Hclick as [Hres Hrest].
  - cbn [App.textContent App.createLi].
    rewrite (proj2 (truthy_nonempty (title n)) Htitle).
    apply find_unique; assumption.
  - apply truthy_nonempty. exact Hid.
  - exact Hcurrent.
  - exact Hfail.
  - exact Hfails.
  - split; [exact Hres|]. split; [exact Hremaining|exact Hrest].
Qed.

End Platform.

Lemma shift_click_deletes_clicked_note_witness :
  App.noteList_children twoTitled !! 0%nat = Some (App.createLi (Some "2") shopping) /\
  App.notes (snd (App.click_entry true 0 3 "T3" None None twoTitled)) = [ideas].
Proof.
  split; [reflexivity|].
  assert (NoDup ["2"; "1"]) as Hids.
  { apply NoDup_cons. split; [|apply NoDup_singleton].
    intros Hin. apply list_elem_of_singleton in Hin. discriminate. }
  assert (NoDup ["Shopping"; "Ideas"]) as Htitles.
  { apply NoDup_cons. split; [|apply NoDup_singleton].
    intros Hin. apply list_elem_of_singleton in Hin. discriminate. }
  assert (forall m, m ∈ App.notes twoTitled -> id m <> "" /\ title m <> "") as Hfilled.
  { intros m Hm. apply elem_of_cons in Hm as [->|Hm]; [split; discriminate|].
    apply list_elem_of_singleton in Hm. subst m. split; discriminate. }
  exact (proj1 (proj2 (proj2
    (shift_click_deletes_clicked_note 0 3 "T3" None None twoTitled shopping
       (Some "2") eq_refl ltac:(left) Hids Htitles Hfilled eq_refl eq_refl)))).
Defined.

(** ** The preview on plain text *)

Import RegExp.

Lemma chars_app (a b : string) : chars (a +:+ b) = chars a ++ chars b.
Proof.
  unfold chars. induction a as [|c a IH]; [reflexivity|].
  rewrite app_String. cbn [String.list_ascii_of_string]. rewrite IH. reflexivity.
Qed.

Lemma replace_unmatched (r : regex) (template : string) (prev : option ascii)
    (s : string) :
  unmatched r prev s -> replace_from r template 0 prev s = s.
Proof.
  revert prev. induction s as [|c s IH]; intros prev [Hnone Hrest];
    cbn [replace_from]; rewrite Hnone; [reflexivity|].
  rewrite (IH (Some c) Hrest). reflexivity.
Qed.

(** After a match that reaches the end of the text nothing is left, when
    the pattern does not match the empty text there. *)
Lemma replace_from_skip_all (r : regex) (template : string) (prev : option ascii)
    (s : string) :
  (forall p, exec r p "" [] (fun _ s' cs => Some (s', cs)) = None) ->
  replace_from r template (String.length s) prev s = "".
Proof.
  intros Hend. revert prev. induction s as [|c s IH]; intros prev.
  - cbn [String.length replace_from]. rewrite Hend. reflexivity.
  - cbn [String.length replace_from]. apply IH.
Qed.

Lemma exec_lit_mismatch (c : ascii) (r : regex) (prev : option ascii) (s : string)
    (cs : captures) (k : Continuation) :
  match s with
  | EmptyString => True
  | String c' _ => c' <> c
  end ->
  exec (Seq (lit c) r) prev s cs k = None.
Proof.
  destruct s as [|c' s]; intros Hc; [reflexivity|].
  cbn [exec lit atom_matches]. rewrite (proj2 (Ascii.eqb_neq c c')) by congruence.
  reflexivity.
Qed.

(** A pattern that starts with a character matches nowhere in a text
    without that character. *)
Lemma unmatched_lit (c : ascii) (r : regex) (prev : option ascii) (s : string) :
  Forall (fun c' => c' <> c) (chars s) -> unmatched (Seq (lit c) r) prev s.
Proof.
  revert prev. induction s as [|c' s IH]; intros prev Hs.
  - split; [reflexivity|exact I].
  - unfold chars in Hs. cbn [String.list_ascii_of_string] in Hs.
    apply Forall_cons in Hs as [Hc Hs].
    split; [apply exec_lit_mismatch; exact Hc|apply IH; exact Hs].
Qed.

Lemma exec_bol (r : regex) (prev : option ascii) (s : string) (cs : captures)
    (k : Continuation) :
  exec (Seq Bol r) prev s cs k =
    match prev with
    | None => exec r None s cs k
    | Some p => if LineTerminator p then exec r (Some p) s cs k else None
    end.
Proof. destruct prev; reflexivity. Qed.

(** A pattern anchored at the start of a line that goes on with a character
    matches nowhere in a text without that character. *)
Lemma unmatched_bol_lit (c : ascii) (r : regex) (prev : option ascii) (s : string) :
  Forall (fun c' => c' <> c) (chars s) -> unmatched (Seq Bol (Seq (lit c) r)) prev s.
Proof.
  revert prev. induction s as [|c' s IH]; intros prev Hs.
  - split; [|exact I]. rewrite exec_bol.
    destruct prev as [p|]; [destruct (LineTerminator p)|]; reflexivity.
  - unfold chars in Hs. cbn [String.list_ascii_of_string] in Hs.
    apply Forall_cons in Hs as [Hc Hs].
    split; [|apply IH; exact Hs].
    rewrite exec_bol.
    destruct prev as [p|]; [destruct (LineTerminator p)|];
      try reflexivity; apply exec_lit_mismatch; exact Hc.
Qed.

(** A pattern anchored at the start of a line matches nowhere inside a
    line. *)
Lemma unmatched_inside_line (r : regex) (p : ascii) (s : string) :
  LineTerminator p = false -> one_line s -> unmatched (Seq Bol r) (Some p) s.
Proof.
  revert p. induction s as [|c s IH]; intros p Hp Hs.
  - split; [|exact I]. rewrite exec_bol, Hp. reflexivity.
  - unfold one_line, chars in Hs. cbn [String.list_ascii_of_string] in Hs.
    apply Forall_cons in Hs as [Hc Hs].
    split; [rewrite exec_bol, Hp; reflexivity|apply IH; assumption].
Qed.

Lemma markup_free_each (s : string) (c : ascii) :
  markup_free s -> (c = "#" \/ c = "*" \/ c = "[")%char ->
  Forall (fun c' => c' <> c) (chars s).
Proof.
  intros Hs Hc. eapply Forall_impl; [exact Hs|].
  intros c' (H1 & H2 & H3). destruct Hc as [->|[->| ->]]; assumption.
Qed.

(** X21. Text without [#], [*] and opening brackets is rendered as it is:
    no rule of the preview applies, and nothing is escaped, so markup in the
    text reaches the preview unchanged. *)
Theorem markdown_plain_text (s : string) :
  markup_free s -> App.markdown s = s.
Proof.
  intros Hs. unfold App.markdown, replace.
  rewrite (replace_unmatched App.re_h1) by (apply unmatched_bol_lit, markup_free_each; auto).
  rewrite (replace_unmatched App.re_h2) by (apply unmatched_bol_lit, markup_free_each; auto).
  rewrite (replace_unmatched App.re_strong) by (apply unmatched_lit, markup_free_each; auto).
  rewrite (replace_unmatched App.re_em) by (apply unmatched_lit, markup_free_each; auto).
  rewrite (replace_unmatched App.re_link) by (apply unmatched_lit, markup_free_each; auto).
  reflexivity.
Qed.

Lemma markdown_plain_text_witness :
  markup_free "<b>milk</b> & eggs" /\
  App.markdown "<b>milk</b> & eggs" = "<b>milk</b> & eggs".
Proof.
  assert (markup_free "<b>milk</b> & eggs") as Hfree.
  { unfold markup_free, chars. cbn [String.list_ascii_of_string].
    repeat (apply Forall_cons; split; [repeat split; discriminate|]).
    apply Forall_nil. exact I. }
  split; [exact Hfree|]. exact (markdown_plain_text _ Hfree).
Defined.

(** ** The constructs of the preview *)

Lemma append_empty_r (s : string) : s +:+ "" = s.
Proof. induction s as [|c s IH]; [reflexivity|]. rewrite app_String, IH. reflexivity. Qed.

Lemma length_append (a b : string) :
  String.length (a +:+ b) = (String.length a + String.length b)%nat.
Proof. induction a as [|c a IH]; [reflexivity|]. rewrite app_String. cbn. rewrite IH. reflexivity. Qed.

Lemma substring_prefix (a b : string) :
  String.substring 0 (String.length a) (a +:+ b) = a.
Proof.
  induction a as [|c a IH]; [destruct b; reflexivity|].
  rewrite app_String. cbn. rewrite IH. reflexivity.
Qed.

Lemma consumed_app (a b : string) : consumed (a +:+ b) b = a.
Proof.
  unfold consumed. rewrite length_append.
  replace (String.length a + String.length b - String.length b)%nat
    with (String.length a) by lia.
  apply substring_prefix.
Qed.

Lemma consumed_all (a : string) : consumed a "" = a.
Proof. rewrite <- (append_empty_r a) at 1. apply consumed_app. Qed.

(** The greedy [.*] runs to the end of a line when the rest of the pattern
    matches there. *)
Lemma exec_star_greedy_line (t : string) (prev : option ascii) (cs : captures)
    (k : Continuation) (m : string * captures) :
  one_line t ->
  (forall p, k p "" cs = Some m) ->
  exec (Star true Dot) prev t cs k = Some m.
Proof.
  intros Ht Hk. revert prev. induction t as [|c t IH]; intros prev.
  - cbn. apply Hk.
  - unfold one_line, chars in Ht. cbn [String.list_ascii_of_string] in Ht.
    apply Forall_cons in Ht as [Hc Ht].
    change (exec (Star true Dot) prev (String c t) cs k)
      with (match (if atom_matches Dot c then exec (Star true Dot) (Some c) t cs k
                   else None) with
            | Some m' => Some m'
            | None => k prev (String c t) cs
            end).
    cbn [atom_matches]. rewrite Hc. cbn [negb]. rewrite (IH Ht). reflexivity.
Qed.

(** The lazy [.*?] stops at the first place in a line where the rest of the
    pattern matches: it runs over a stretch [t] of a line on which the rest
    of the pattern cannot start. *)
Lemma exec_star_lazy_skip (d : ascii) (t rest : string) (prev : option ascii)
    (cs : captures) (k : Continuation) (m : string * captures) :
  (forall p c s', c <> d -> k p (String c s') cs = None) ->
  Forall (fun c => c <> d /\ LineTerminator c = false) (chars t) ->
  (forall p, k p rest cs = Some m) ->
  exec (Star false Dot) prev (t +:+ rest) cs k = Some m.
Proof.
  intros Hfail Ht Hrest. revert prev. induction t as [|c t IH]; intros prev.
  - change ("" +:+ rest) with rest. destruct rest; cbn; rewrite Hrest; reflexivity.
  - unfold chars in Ht. cbn [String.list_ascii_of_string] in Ht.
    apply Forall_cons in Ht as [[Hc Hline] Ht]. rewrite app_String.
    change (exec (Star false Dot) prev (String c (t +:+ rest)) cs k)
      with (match k prev (String c (t +:+ rest)) cs with
            | Some m' => Some m'
            | None =>
                if atom_matches Dot c
                then exec (Star false Dot) (Some c) (t +:+ rest) cs k
                else None
            end).
    rewrite (Hfail _ _ _ Hc). cbn [atom_matches]. rewrite Hline. cbn [negb].
    apply IH. exact Ht.
Qed.

Lemma one_line_app (a b : string) : one_line (a +:+ b) <-> one_line a /\ one_line b.
Proof. unfold one_line. rewrite chars_app. apply Forall_app. Qed.

Lemma inline_free_each (s : string) (c : ascii) :
  inline_free s -> (c = "*" \/ c = "[")%char ->
  Forall (fun c' => c' <> c) (chars s).
Proof.
  intros Hs Hc. eapply Forall_impl; [exact Hs|].
  intros c' (H1 & H2). destruct Hc as [->| ->]; assumption.
Qed.

Lemma Forall_chars_app (P : ascii -> Prop) (a b : string) :
  Forall P (chars (a +:+ b)) <-> Forall P (chars a) /\ Forall P (chars b).
Proof. rewrite chars_app. apply Forall_app. Qed.

(** Proves that a pattern starting with a character matches nowhere in a
    text built from constant pieces and pieces known to be without it. *)
Ltac no_such_char :=
  repeat first
    [ apply Forall_nil; exact I
    | apply Forall_cons; split; [discriminate|]
    | apply Forall_chars_app; split
    | (apply inline_free_each; [assumption|auto; fail])
    | assumption ].

(** X22. A heading.  A line that starts with [#] and a space, followed by
    text without [*], opening brackets and line terminators, is rendered as
    an [h1] element around that text. *)
Theorem markdown_heading (t : string) :
  one_line t -> inline_free t ->
  App.markdown ("# " +:+ t) = "<h1>" +:+ t +:+ "</h1>".
Proof.
  intros Hline Hfree. unfold App.markdown.
  assert (replace App.re_h1 "<h1>$1</h1>" ("# " +:+ t) = "<h1>" +:+ t +:+ "</h1>") as ->.
  { unfold replace. change ("# " +:+ t) with (String "#" (String " " t)).
    cbn [replace_from].
    assert (exec App.re_h1 None (String "#" (String " " t)) []
              (fun _ s' cs => Some (s', cs)) = Some ("", [(1%nat, consumed t "")])) as ->.
    { change (exec App.re_h1 None (String "#" (String " " t)) []
                (fun _ s' cs => Some (s', cs)))
        with (exec (Star true Dot) (Some " "%char) t []
                (fun p s' cs' =>
                   exec (Seq Eol Empty) p s' cs'
                     (fun p' s'' cs'' => Some (s'', (1%nat, consumed t s'') :: cs'')))).
      apply exec_star_greedy_line; [exact Hline|reflexivity]. }
    rewrite consumed_all. cbn [String.length Nat.sub].
    rewrite replace_from_skip_all
      by (intros p; unfold App.re_h1; cbn [cat foldr]; rewrite exec_bol;
          destruct p as [p|]; [destruct (LineTerminator p)|]; reflexivity).
    cbn. rewrite append_empty_r. reflexivity. }
  unfold replace. change ("<h1>" +:+ t +:+ "</h1>") with (String "<" ("h1>" +:+ t +:+ "</h1>")).
  rewrite (replace_unmatched App.re_h2).
  2:{ split; [reflexivity|].
      apply unmatched_inside_line; [reflexivity|].
      apply one_line_app. split; [repeat constructor|].
      apply one_line_app. split; [exact Hline|repeat constructor]. }
  rewrite (replace_unmatched App.re_strong)
    by (apply unmatched_lit; unfold chars at 1;
        cbn [String.list_ascii_of_string]; no_such_char).
  rewrite (replace_unmatched App.re_em)
    by (apply unmatched_lit; unfold chars at 1;
        cbn [String.list_ascii_of_string]; no_such_char).
  rewrite (replace_unmatched App.re_link)
    by (apply unmatched_lit; unfold chars at 1;
        cbn [String.list_ascii_of_string]; no_such_char).
  reflexivity.
Qed.

Lemma markdown_heading_witness :
  one_line "To do #1" /\ inline_free "To do #1" /\
  App.markdown "# To do #1" = "<h1>To do #1</h1>".
Proof.
  assert (one_line "To do #1") as Hline by (repeat constructor).
  assert (inline_free "To do #1") as Hfree
    by (unfold inline_free, chars; cbn [String.list_ascii_of_string];
        repeat (apply Forall_cons; split; [split; discriminate|]); apply Forall_nil; exact I).
  split; [exact Hline|]. split; [exact Hfree|].
  exact (markdown_heading "To do #1" Hline Hfree).
Defined.

(** X23. A second-level heading.  A line that starts with [##] and a space,
    followed by text without [*], opening brackets and line terminators, is
    rendered as an [h2] element around that text: the rule for [h1], which
    runs first, does not take it. *)
Theorem markdown_heading2 (t : string) :
  one_line t -> inline_free t ->
  App.markdown ("## " +:+ t) = "<h2>" +:+ t +:+ "</h2>".
Proof.
  intros Hline Hfree. unfold App.markdown, replace.
  change ("## " +:+ t) with (String "#" (String "#" (String " " t))).
  rewrite (replace_unmatched App.re_h1).
  2:{ split; [reflexivity|].
      apply unmatched_inside_line; [reflexivity|].
      change (String "#" (String " " t)) with ("# " +:+ t).
      apply one_line_app. split; [repeat constructor|exact Hline]. }
  assert (replace_from App.re_h2 "<h2>$1</h2>" 0 None (String "#" (String "#" (String " " t)))
          = "<h2>" +:+ t +:+ "</h2>") as ->.
  { cbn [replace_from].
    assert (exec App.re_h2 None (String "#" (String "#" (String " " t))) []
              (fun _ s' cs => Some (s', cs)) = Some ("", [(1%nat, consumed t "")])) as ->.
    { change (exec App.re_h2 None (String "#" (String "#" (String " " t))) []
                (fun _ s' cs => Some (s', cs)))
        with (exec (Star true Dot) (Some " "%char) t []
                (fun p s' cs' =>
                   exec (Seq Eol Empty) p s' cs'
                     (fun p' s'' cs'' => Some (s'', (1%nat, consumed t s'') :: cs'')))).
      apply exec_star_greedy_line; [exact Hline|reflexivity]. }
    rewrite consumed_all. cbn [String.length Nat.sub].
    rewrite replace_from_skip_all
      by (intros p; unfold App.re_h2; cbn [cat foldr]; rewrite exec_bol;
          destruct p as [p|]; [destruct (LineTerminator p)|]; reflexivity).
    cbn. rewrite append_empty_r. reflexivity. }
  rewrite (replace_unmatched App.re_strong)
    by (apply unmatched_lit; unfold chars at 1;
        cbn [String.list_ascii_of_string]; no_such_char).
  rewrite (replace_unmatched App.re_em)
    by (apply unmatched_lit; unfold chars at 1;
        cbn [String.list_ascii_of_string]; no_such_char).
  rewrite (replace_unmatched App.re_link)
    by (apply unmatched_lit; unfold chars at 1;
        cbn [String.list_ascii_of_string]; no_such_char).
  reflexivity.
Qed.

Lemma markdown_heading2_witness :
  one_line "Later" /\ inline_free "Later" /\
  App.markdown "## Later" = "<h2>Later</h2>".
Proof.
  assert (one_line "Later") as Hline by (repeat constructor).
  assert (inline_free "Later") as Hfree
    by (unfold inline_free, chars; cbn [String.list_ascii_of_string];
        repeat (apply Forall_cons; split; [split; discriminate|]); apply Forall_nil; exact I).
  split; [exact Hline|]. split; [exact Hfree|].
  exact (markdown_heading2 "Later" Hline Hfree).
Defined.

Lemma inline_free_line (t : string) (d : ascii) :
  one_line t -> inline_free t -> (d = "*" \/ d = "[")%char ->
  Forall (fun c => c <> d /\ LineTerminator c = false) (chars t).
Proof.
  intros Hline Hfree Hd. unfold one_line, inline_free in *.
  rewrite Forall_forall in *. intros c Hc.
  destruct (Hfree c Hc) as [H1 H2]. split; [|apply Hline; exact Hc].
  destruct Hd as [->| ->]; assumption.
Qed.

(** Inside a line that does not start with [#], the heading rules match
    nowhere. *)
Lemma headings_unmatched (c : ascii) (s : string) :
  c <> "#"%char -> LineTerminator c = false -> one_line s ->
  unmatched App.re_h1 None (String c s) /\ unmatched App.re_h2 None (String c s).
Proof.
  intros Hc Hterm Hline. split.
  - split; [|apply unmatched_inside_line; assumption].
    unfold App.re_h1. cbn [cat foldr]. rewrite exec_bol.
    apply exec_lit_mismatch. exact Hc.
  - split; [|apply unmatched_inside_line; assumption].
    unfold App.re_h2. cbn [cat foldr]. rewrite exec_bol.
    apply exec_lit_mismatch. exact Hc.
Qed.

(** X24. Bold.  Text without [*], opening brackets and line terminators
    between two pairs of [*] is rendered as a [strong] element around that
    text. *)
Theorem markdown_bold (t : string) :
  one_line t -> inline_free t ->
  App.markdown ("**" +:+ t +:+ "**") = "<strong>" +:+ t +:+ "</strong>".
Proof.
  intros Hline Hfree. unfold App.markdown, replace.
  change ("**" +:+ t +:+ "**") with (String "*" (String "*" (t +:+ "**"))).
  destruct (headings_unmatched "*" (String "*" (t +:+ "**"))) as [Hh1 Hh2];
    [discriminate|reflexivity| |].
  { change (String "*" (t +:+ "**")) with ("*" +:+ t +:+ "**").
    apply one_line_app. split; [repeat constructor|].
    apply one_line_app. split; [exact Hline|repeat constructor]. }
  rewrite (replace_unmatched App.re_h1) by exact Hh1.
  rewrite (replace_unmatched App.re_h2) by exact Hh2.
  assert (replace_from App.re_strong "<strong>$1</strong>" 0 None
            (String "*" (String "*" (t +:+ "**")))
          = "<strong>" +:+ t +:+ "</strong>") as ->.
  { cbn [replace_from].
    assert (exec App.re_strong None (String "*" (String "*" (t +:+ "**"))) []
              (fun _ s' cs => Some (s', cs))
            = Some ("", [(1%nat, consumed (t +:+ "**") "**")])) as ->.
    { change (exec App.re_strong None (String "*" (String "*" (t +:+ "**"))) []
                (fun _ s' cs => Some (s', cs)))
        with (exec (Star false Dot) (Some "*"%char) (t +:+ "**") []
                (fun p s' cs' =>
                   exec (cat [lit "*"; lit "*"]) p s' ((1%nat, consumed (t +:+ "**") s') :: cs')
                     (fun _ s'' cs'' => Some (s'', cs'')))).
      apply (exec_star_lazy_skip "*").
      - intros p c s' Hc. apply exec_lit_mismatch. exact Hc.
      - apply inline_free_line; auto.
      - reflexivity. }
    rewrite consumed_app. cbn [String.length Nat.sub].
    rewrite replace_from_skip_all by (intros p; reflexivity).
    cbn. rewrite append_empty_r. reflexivity. }
  rewrite (replace_unmatched App.re_em)
    by (apply unmatched_lit; unfold chars at 1;
        cbn [String.list_ascii_of_string]; no_such_char).
  rewrite (replace_unmatched App.re_link)
    by (apply unmatched_lit; unfold chars at 1;
        cbn [String.list_ascii_of_string]; no_such_char).
  reflexivity.
Qed.

Lemma markdown_bold_witness :
  one_line "very #1" /\ inline_free "very #1" /\
  App.markdown "**very #1**" = "<strong>very #1</strong>".
Proof.
  assert (one_line "very #1") as Hline by (repeat constructor).
  assert (inline_free "very #1") as Hfree
    by (unfold inline_free, chars; cbn [String.list_ascii_of_string];
        repeat (apply Forall_cons; split; [split; discriminate|]); apply Forall_nil; exact I).
  split; [exact Hline|]. split; [exact Hfree|].
  exact (markdown_bold "very #1" Hline Hfree).
Defined.

(** A pattern that starts with a character matches nowhere in a stretch
    without that character, when it matches nowhere in what follows. *)
Lemma unmatched_lit_app (c : ascii) (r : regex) (prev : option ascii) (t rest : string) :
  Forall (fun c' => c' <> c) (chars t) ->
  (forall p, unmatched (Seq (lit c) r) p rest) ->
  unmatched (Seq (lit c) r) prev (t +:+ rest).
Proof.
  intros Ht Hrest. revert prev. induction t as [|c' t IH]; intros prev.
  - apply Hrest.
  - unfold chars in Ht. cbn [String.list_ascii_of_string] in Ht.
    apply Forall_cons in Ht as [Hc Ht]. rewrite app_String.
    split; [apply exec_lit_mismatch; exact Hc|apply IH; exact Ht].
Qed.

(** The bold rule matches nowhere in a text with single [*] only. *)
Lemma strong_unmatched_single (t : string) :
  Forall (fun c => c <> "*"%char) (chars t) ->
  unmatched App.re_strong None ("*" +:+ t +:+ "*").
Proof.
  intros Ht. change ("*" +:+ t +:+ "*") with (String "*" (t +:+ "*")). split.
  - destruct t as [|c t].
    + reflexivity.
    + unfold chars in Ht. cbn [String.list_ascii_of_string] in Ht.
      apply Forall_cons in Ht as [Hc _].
      change (exec App.re_strong None (String "*" (String c t +:+ "*")) []
                (fun _ s' cs => Some (s', cs)))
        with (exec (Seq (lit "*") (cat [Group 1 (Star false Dot); lit "*"; lit "*"]))
                (Some "*"%char) (String c (t +:+ "*")) []
                (fun _ s' cs => Some (s', cs))).
      apply exec_lit_mismatch. exact Hc.
  - apply unmatched_lit_app; [exact Ht|].
    intros p. split; [reflexivity|]. split; [reflexivity|exact I].
Qed.

(** X25. Italic.  Text without [*], opening brackets and line terminators
    between two single [*] is rendered as an [em] element around that
    text. *)
Theorem markdown_italic (t : string) :
  one_line t -> inline_free t ->
  App.markdown ("*" +:+ t +:+ "*") = "<em>" +:+ t +:+ "</em>".
Proof.
  intros Hline Hfree. unfold App.markdown, replace.
  destruct (headings_unmatched "*" (t +:+ "*")) as [Hh1 Hh2];
    [discriminate|reflexivity| |].
  { apply one_line_app. split; [exact Hline|repeat constructor]. }
  change (String "*" (t +:+ "*")) with ("*" +:+ t +:+ "*") in Hh1, Hh2.
  rewrite (replace_unmatched App.re_h1) by exact Hh1.
  rewrite (replace_unmatched App.re_h2) by exact Hh2.
  rewrite (replace_unmatched App.re_strong)
    by (apply strong_unmatched_single, inline_free_each; auto).
  change ("*" +:+ t +:+ "*") with (String "*" (t +:+ "*")).
  assert (replace_from App.re_em "<em>$1</em>" 0 None (String "*" (t +:+ "*"))
          = "<em>" +:+ t +:+ "</em>") as ->.
  { cbn [replace_from].
    assert (exec App.re_em None (String "*" (t +:+ "*")) []
              (fun _ s' cs => Some (s', cs))
            = Some ("", [(1%nat, consumed (t +:+ "*") "*")])) as ->.
    { change (exec App.re_em None (String "*" (t +:+ "*")) []
                (fun _ s' cs => Some (s', cs)))
        with (exec (Star false Dot) (Some "*"%char) (t +:+ "*") []
                (fun p s' cs' =>
                   exec (cat [lit "*"]) p s' ((1%nat, consumed (t +:+ "*") s') :: cs')
                     (fun _ s'' cs'' => Some (s'', cs'')))).
      apply (exec_star_lazy_skip "*").
      - intros p c s' Hc. apply exec_lit_mismatch. exact Hc.
      - apply inline_free_line; auto.
      - reflexivity. }
    rewrite consumed_app. cbn [String.length Nat.sub].
    rewrite replace_from_skip_all by (intros p; reflexivity).
    cbn. rewrite append_empty_r. reflexivity. }
  rewrite (replace_unmatched App.re_link)
    by (apply unmatched_lit; unfold chars at 1;
        cbn [String.list_ascii_of_string]; no_such_char).
  reflexivity.
Qed.

Lemma markdown_italic_witness :
  one_line "soon" /\ inline_free "soon" /\
  App.markdown "*soon*" = "<em>soon</em>".
Proof.
  assert (one_line "soon") as Hline by (repeat constructor).
  assert (inline_free "soon") as Hfree
    by (unfold inline_free, chars; cbn [String.list_ascii_of_string];
        repeat (apply Forall_cons; split; [split; discriminate|]); apply Forall_nil; exact I).
  split; [exact Hline|]. split; [exact Hfree|].
  exact (markdown_italic "soon" Hline Hfree).
Defined.

(** X26. A link.  A text in brackets followed by an address in parentheses
    is rendered as an [a] element around the text, with the address as its
    [href], when neither holds [*], opening brackets or line terminators, the
    text holds no closing bracket and the address no closing parenthesis. *)
Theorem markdown_link (text url : string) :
  one_line text -> inline_free text -> Forall (fun c => c <> "]"%char) (chars text) ->
  one_line url -> inline_free url -> Forall (fun c => c <> ")"%char) (chars url) ->
  App.markdown ("[" +:+ text +:+ "](" +:+ url +:+ ")") =
    "<a href=" +:+ String (Ascii.ascii_of_nat 34)
      (url +:+ String (Ascii.ascii_of_nat 34) (">" +:+ text +:+ "</a>")).
Proof.
  intros Hline Hfree Hbracket Hline' Hfree' Hparen. unfold App.markdown, replace.
  change ("[" +:+ text +:+ "](" +:+ url +:+ ")")
    with (String "[" (text +:+ "](" +:+ url +:+ ")")).
  destruct (headings_unmatched "[" (text +:+ "](" +:+ url +:+ ")")) as [Hh1 Hh2];
    [discriminate|reflexivity| |].
  { apply one_line_app. split; [exact Hline|].
    apply one_line_app. split; [repeat constructor|].
    apply one_line_app. split; [exact Hline'|repeat constructor]. }
  rewrite (replace_unmatched App.re_h1) by exact Hh1.
  rewrite (replace_unmatched App.re_h2) by exact Hh2.
  rewrite (replace_unmatched App.re_strong)
    by (apply unmatched_lit; unfold chars at 1;
        cbn [String.list_ascii_of_string]; no_such_char).
  rewrite (replace_unmatched App.re_em)
    by (apply unmatched_lit; unfold chars at 1;
        cbn [String.list_ascii_of_string]; no_such_char).
  cbn [replace_from].
  assert (exec App.re_link None (String "[" (text +:+ "](" +:+ url +:+ ")")) []
            (fun _ s' cs => Some (s', cs))
          = Some ("", [(2%nat, consumed (url +:+ ")") ")");
                       (1%nat, consumed (text +:+ "](" +:+ url +:+ ")")
                                 ("](" +:+ url +:+ ")"))])) as ->.
  { change (exec App.re_link None (String "[" (text +:+ "](" +:+ url +:+ ")")) []
              (fun _ s' cs => Some (s', cs)))
      with (exec (Star false Dot) (Some "["%char) (text +:+ "](" +:+ url +:+ ")") []
              (fun p s' cs' =>
                 exec (cat [lit "]"; lit "("; Group 2 (Star false Dot); lit ")"]) p s'
                   ((1%nat, consumed (text +:+ "](" +:+ url +:+ ")") s') :: cs')
                   (fun _ s'' cs'' => Some (s'', cs'')))).
    apply (exec_star_lazy_skip "]").
    - intros p c s' Hc. apply exec_lit_mismatch. exact Hc.
    - unfold one_line in Hline. rewrite Forall_forall in *. intros c Hc. auto.
    - intros p.
      change (exec (cat [lit "]"; lit "("; Group 2 (Star false Dot); lit ")"]) p
                ("](" +:+ url +:+ ")")
                [(1%nat, consumed (text +:+ "](" +:+ url +:+ ")") ("](" +:+ url +:+ ")"))]
                (fun _ s'' cs'' => Some (s'', cs'')))
        with (exec (Star false Dot) (Some "("%char) (url +:+ ")")
                [(1%nat, consumed (text +:+ "](" +:+ url +:+ ")") ("](" +:+ url +:+ ")"))]
                (fun p s' cs' =>
                   exec (cat [lit ")"]) p s' ((2%nat, consumed (url +:+ ")") s') :: cs')
                     (fun _ s'' cs'' => Some (s'', cs'')))).
      apply (exec_star_lazy_skip ")").
      + intros p' c s' Hc. apply exec_lit_mismatch. exact Hc.
      + unfold one_line in Hline'. rewrite Forall_forall in *. intros c Hc. auto.
      + reflexivity. }
  rewrite !consumed_app. cbn [String.length Nat.sub].
  rewrite replace_from_skip_all by (intros p; reflexivity).
  cbn. rewrite append_empty_r. reflexivity.
Qed.

Lemma markdown_link_witness :
  one_line "site" /\ one_line "https://example.org/#top" /\
  App.markdown "[site](https://example.org/#top)" =
    "<a href=" +:+ String (Ascii.ascii_of_nat 34)
      ("https://example.org/#top" +:+ String (Ascii.ascii_of_nat 34) (">site</a>")).
Proof.
  assert (one_line "site") as Hline by (repeat constructor).
  assert (one_line "https://example.org/#top") as Hline' by (repeat constructor).
  split; [exact Hline|]. split; [exact Hline'|].
  apply (markdown_link "site" "https://example.org/#top" Hline); [| |exact Hline'| |];
    unfold inline_free, chars; cbn [String.list_ascii_of_string];
    repeat (apply Forall_cons; split; [try split; discriminate|]);
    apply Forall_nil; exact I.
Defined.
